(** * HueChatbot: the retrieval-augmented answer pipeline of chatbot/Chatbot.py

    A shallow embedding of the class [HueChatbot]: the query cache and the
    search client ([_search_duckduckgo]), the content extractor
    ([_extract_article_fast]), the fetch aggregator ([_process_urls_parallel]),
    the answer generator ([_generate_answer]), the orchestrator
    ([_rag_process]) and the history window ([chat]).

    Python values are modelled as follows.
    - [str] is a sequence of Unicode code points, so [len] counts
      characters as Python does and [take n] is the slice [[:n]].
    - [int] is [Z].
    - the dict [search_cache] is a finite map.
    - the external services (the search provider, the thread pool of page
      fetches, the generation provider) are functions over an abstract
      world; an exception they raise is a value of type [Exception].
    - the instance, the world and a log of requests are threaded through a
      state monad.  The [print] calls and the timers are not modelled. *)

From Stdlib Require Import ZArith NArith Lia String Ascii.
From stdpp Require Import base option list gmap.

Local Open Scope Z_scope.

(** ** Python strings *)

Module PyStr.

Abbreviation str := (list N).

(** Decoding of the UTF-8 bytes of a source literal into code points. *)
Fixpoint utf8_decode (bs : list N) : str :=
  match bs with
  | [] => []
  | b0 :: r0 =>
    if (b0 <? 128)%N then b0 :: utf8_decode r0
    else if (b0 <? 224)%N then
      match r0 with
      | b1 :: r1 => ((b0 mod 32) * 64 + b1 mod 64)%N :: utf8_decode r1
      | _ => []
      end
    else if (b0 <? 240)%N then
      match r0 with
      | b1 :: b2 :: r2 =>
        ((b0 mod 16) * 4096 + (b1 mod 64) * 64 + b2 mod 64)%N :: utf8_decode r2
      | _ => []
      end
    else
      match r0 with
      | b1 :: b2 :: b3 :: r3 =>
        ((b0 mod 8) * 262144 + (b1 mod 64) * 4096 + (b2 mod 64) * 64 + b3 mod 64)%N
          :: utf8_decode r3
      | _ => []
      end
  end.

Fixpoint bytes_of (s : string) : list N :=
  match s with
  | EmptyString => []
  | String c s' => N_of_ascii c :: bytes_of s'
  end.

(** A string literal of the source. *)
Definition py (s : string) : str := utf8_decode (bytes_of s).

(** [str.isspace] on one character: the code points CPython's
    [_PyUnicode_IsWhitespace] accepts. *)
Definition isspace (c : N) : bool :=
  ((9 <=? c) && (c <=? 13) || (28 <=? c) && (c <=? 32)
   || (c =? 133) || (c =? 160) || (c =? 5760)
   || (8192 <=? c) && (c <=? 8202)
   || (c =? 8232) || (c =? 8233) || (c =? 8239) || (c =? 8287)
   || (c =? 12288))%N.

(** [s.lstrip()], [s.rstrip()] and [s.strip()] without argument. *)
Fixpoint lstrip (s : str) : str :=
  match s with
  | [] => []
  | c :: s' => if isspace c then lstrip s' else s
  end.

Definition rstrip (s : str) : str := reverse (lstrip (reverse s)).

Definition strip (s : str) : str := rstrip (lstrip s).

(** [s.replace(old, new)] for a single character [old]. *)
Definition replace_char (old : N) (new : str) (s : str) : str :=
  mjoin ((fun c => if (c =? old)%N then new else [c]) <$> s).

(** [s.startswith(p)]. *)
Fixpoint startswith (p s : str) : bool :=
  match p, s with
  | [], _ => true
  | _ :: _, [] => false
  | a :: p', b :: s' => (a =? b)%N && startswith p' s'
  end.

(** [needle in hay]. *)
Fixpoint contains (needle hay : str) : bool :=
  startswith needle hay ||
  match hay with
  | [] => false
  | _ :: hay' => contains needle hay'
  end.

(** [sep.join(parts)]. *)
Fixpoint join (sep : str) (parts : list str) : str :=
  match parts with
  | [] => []
  | [p] => p
  | p :: rest => p ++ sep ++ join sep rest
  end.

(** [str.lower] restricted to ASCII letters; the pipeline itself takes
    [str.lower] as a parameter, this instance serves the examples. *)
Definition ascii_lower (s : str) : str :=
  (fun c => if ((65 <=? c) && (c <=? 90))%N then (c + 32)%N else c) <$> s.

End PyStr.
Import PyStr.

(** ** Python sequences *)

(** [len(l)]. *)
Definition len {A} (l : list A) : Z := Z.of_nat (length l).

(** The truth value of a sequence: [bool(l)]. *)
Definition truthy {A} (l : list A) : bool :=
  match l with
  | [] => false
  | _ :: _ => true
  end.

(** [l[start:]] for any integer [start], negative ones counting from the
    end and out-of-range ones clamped, as Python's slice does. *)
Definition slice_from {A} (l : list A) (start : Z) : list A :=
  let i := if start <? 0 then Z.max 0 (len l + start) else Z.min (len l) start in
  drop (Z.to_nat i) l.

(** ** Data *)

(** What [str(e)] gives for a caught exception [e]. *)
Record Exception := mkException { exc_str : str }.

(** A record of the search provider, which carries the keys title, href
    and body; the loop reads [r["href"]] only. *)
Record SearchResult := mkSearchResult {
  title : str;
  href : str;
  body : str
}.

(** A parsed page after the structural tags were decomposed:
    [select_one_text sel] is [None] when [soup.select_one(sel)] matches
    nothing and the matched region's [get_text(strip=True, separator=" ")]
    otherwise; [page_text] is [soup.get_text(strip=True, separator=" ")]. *)
Record Soup := mkSoup {
  select_one_text : str -> option str;
  page_text : str
}.

(** One entry of [self.history]: the dict with keys "q" and "a". *)
Record Turn := mkTurn { q : str; a : str }.

(** The attributes of a [HueChatbot] instance the pipeline reads or
    writes. *)
Record HueChatbot := mkHueChatbot {
  max_search_results : Z;
  max_history : Z;
  history : list Turn;
  search_cache : gmap str (list str)
}.

(** The log, a ghost record of what was invoked: one entry per request to
    the search provider and per entry into the fetch aggregator and the
    answer generator. *)
Inductive Event :=
| EvDdgsText (search_query : str) (max_results : Z)
| EvProcessUrls (urls : list str)
| EvGenerateAnswer (question context history_text : str).

(** ** The content extractor *)

Definition content_selectors : list str :=
  [py "article"; py ".article-content"; py ".content"; py ".post-content";
   py ".entry-content"; py ".main-content"; py "main"; py ".article-body"].

(** The loop of lines 117-122: the text of the first selector that
    matches, the empty string when none does. *)
Fixpoint first_region (soup : Soup) (selectors : list str) : str :=
  match selectors with
  | [] => []
  | selector :: rest =>
    match select_one_text soup selector with
    | Some text => text
    | None => first_region soup rest
    end
  end.

(** Lines 117-124: the text before truncation. *)
Definition extracted_text (soup : Soup) : str :=
  let text := first_region soup content_selectors in
  if negb (truthy text) || (len text <? 100) then page_text soup else text.

(** Lines 125-126. *)
Definition truncate (text : str) : str :=
  if len text >? 2000 then take 2000 text ++ py "..." else text.

(** [_extract_article_fast]: [fetched] is what [session.get],
    [raise_for_status] and the parser gave for the URL, an exception or the
    parsed page; every exception ends in the empty string. *)
Definition _extract_article_fast (fetched : Exception + Soup) : str :=
  match fetched with
  | inr soup => truncate (extracted_text soup)
  | inl e => []
  end.

(** ** The fetch aggregator *)

(** The loop over [as_completed] of lines 141-151 on the results of the
    completed futures, in completion order; it carries [combined_text] and
    [successful_count]. *)
Fixpoint accumulate (contents : list str) (combined_text : str)
  (successful_count : Z) : str * Z :=
  match contents with
  | [] => (combined_text, successful_count)
  | content :: rest =>
    if truthy content && (len (strip content) >? 50) then
      let combined_text := combined_text ++ content ++ [10; 10]%N in
      let successful_count := successful_count + 1 in
      if len combined_text >? 5000 then (combined_text, successful_count)
      else accumulate rest combined_text successful_count
    else accumulate rest combined_text successful_count
  end.

(** ** The search client *)

Definition denylist : list str :=
  [py ".pdf"; py "facebook"; py "youtube"; py "instagram"; py "shopee"; py "tiki"].

(** ** The answer generator *)

(** The f-string of lines 165-178. *)
Definition prompt_of (question clean_context clean_history : str) : str :=
  [10]%N
  ++ py "            Dưới đây là các tài liệu tham khảo được thu thập từ các trang web uy tín." ++ [10]%N
  ++ py "            Hãy đọc kỹ và chỉ sử dụng thông tin từ các tài liệu này để trả lời câu hỏi." ++ [10; 10]%N
  ++ py "            "
  ++ (if truthy clean_history
      then py "Lịch sử hội thoại trước đó: " ++ clean_history else [])
  ++ [10; 10]%N
  ++ py "            ---" ++ [10]%N
  ++ py "            TÀI LIỆU THAM KHẢO:" ++ [10]%N
  ++ py "            " ++ clean_context ++ [10]%N
  ++ py "            ---" ++ [10; 10]%N
  ++ py "            CÂU HỎI: " ++ question ++ [10; 10]%N
  ++ py "            TRẢ LỜI:".

(** Lines 162-178: the prompt sent for a question, a context and a
    history text. *)
Definition build_prompt (question context history_text : str) : str :=
  let clean_context := strip (replace_char 10 (py " ") context) in
  let clean_history :=
    if truthy history_text
    then strip (replace_char 10 (py " ") history_text) else [] in
  prompt_of question clean_context clean_history.

(** ** The pipeline over the external services *)

Section Pipeline.

Context {World : Type}.

(** [str.lower], the Unicode case mapping of the interpreter. *)
Variable lower : str -> str.

(** [list(ddgs.text(search_query, max_results=n, region="vn-vi"))]: the
    provider's records, or the exception the request raised. *)
Variable ddgs_text : str -> Z -> World -> (Exception + list SearchResult) * World.

(** The thread pool of lines 136-141 on the submitted URLs: for each
    future [as_completed] yields before the 8 second deadline, in
    completion order, what its worker fetched. *)
Variable as_completed : list str -> World -> list (Exception + Soup) * World.

(** [self.model.generate_content(contents=prompt, ...).text]: the text of
    the response, or the exception raised by the request or by reading
    the text. *)
Variable generate_content : str -> World -> (Exception + str) * World.

(** *** State *)

Record State := mkState {
  self : HueChatbot;
  world : World;
  log : list Event
}.

Definition M (A : Type) : Type := State -> A * State.

Definition ret {A} (x : A) : M A := fun st => (x, st).

Definition bind {A B} (m : M A) (k : A -> M B) : M B :=
  fun st => let (x, st') := m st in k x st'.

Notation "'let*' x ':=' m 'in' k" := (bind m (fun x => k))
  (at level 10, x name, m at level 100, k at level 200).

Definition get_self : M HueChatbot := fun st => (self st, st).

Definition emit (ev : Event) : M unit :=
  fun st => (tt, mkState (self st) (world st) (log st ++ [ev])).

(** A request to an external service. *)
Definition request {A} (call : World -> A * World) : M A :=
  fun st => let (x, w) := call (world st) in (x, mkState (self st) w (log st)).

(** [self.search_cache[query] = urls]. *)
Definition cache_store (query : str) (urls : list str) : M unit :=
  fun st =>
    let bot := self st in
    (tt, mkState (mkHueChatbot (max_search_results bot) (max_history bot)
                    (history bot) (<[query := urls]> (search_cache bot)))
           (world st) (log st)).

(** [self.history.append(turn)]. *)
Definition history_append (turn : Turn) : M unit :=
  fun st =>
    let bot := self st in
    (tt, mkState (mkHueChatbot (max_search_results bot) (max_history bot)
                    (history bot ++ [turn]) (search_cache bot))
           (world st) (log st)).

(** *** The search client *)

(** [any(bad in url.lower() for bad in [...])]. *)
Definition blocked (url : str) : bool :=
  existsb (fun bad => contains bad (lower url)) denylist.

(** The loop [for r in results] of lines 74-90, started with the list
    [urls] collected so far. *)
Fixpoint collect_urls (results : list SearchResult) (urls : list str)
  (max_results : Z) : list str :=
  match results with
  | [] => urls
  | r :: rest =>
    let url := href r in
    let urls := if negb (blocked url) then urls ++ [url] else urls in
    if len urls >=? max_results then urls
    else collect_urls rest urls max_results
  end.

Definition _search_duckduckgo (query : str) (max_results : option Z)
  : M (list str) :=
  let* bot := get_self in
  let max_results :=
    match max_results with
    | None => max_search_results bot
    | Some n => n
    end in
  match search_cache bot !! query with
  | Some urls => ret urls
  | None =>
    let search_query := query ++ py " Huế, Việt Nam" in
    let* _ := emit (EvDdgsText search_query (max_results * 2)) in
    let* fetched := request (ddgs_text search_query (max_results * 2)) in
    match fetched with
    | inr results =>
      let urls := collect_urls results [] max_results in
      let* _ := cache_store query urls in
      ret urls
    | inl e => ret []
    end
  end.

(** *** The fetch aggregator *)

Definition _process_urls_parallel (urls : list str) : M str :=
  let* _ := emit (EvProcessUrls urls) in
  let* completed := request (as_completed urls) in
  ret (fst (accumulate (_extract_article_fast <$> completed) [] 0)).

(** *** The answer generator *)

Definition _generate_answer (question context history_text : str) : M str :=
  let* _ := emit (EvGenerateAnswer question context history_text) in
  let prompt := build_prompt question context history_text in
  let* response := request (generate_content prompt) in
  match response with
  | inr text => ret (strip text)
  | inl e => ret (py "Lỗi khi gọi AI Gemini: " ++ exc_str e)
  end.

(** *** The orchestrator *)

Definition no_information_found : str := py "Không tìm thấy thông tin.".

Definition could_not_extract : str := py "Không trích xuất được thông tin.".

Definition _rag_process (question history_text : str) : M str :=
  let* urls := _search_duckduckgo question None in
  if negb (truthy urls) then ret no_information_found
  else
    let* combined_text := _process_urls_parallel urls in
    if negb (truthy (strip combined_text)) then ret could_not_extract
    else _generate_answer question combined_text history_text.

(** *** The history window *)

(** [self.history[-self.max_history:]]. *)
Definition recent_history (bot : HueChatbot) : list Turn :=
  slice_from (history bot) (- max_history bot).

(** The f-string [f"Q: {h['q']} A: {h['a']}"]. *)
Definition render_turn (h : Turn) : str :=
  py "Q: " ++ q h ++ py " A: " ++ a h.

(** Lines 245-250. *)
Definition history_context_of (bot : HueChatbot) : str :=
  if truthy (history bot)
  then join (py " ") (render_turn <$> recent_history bot)
  else [].

Definition chat (question : str) : M str :=
  let* bot := get_self in
  let history_context := history_context_of bot in
  let* answer := _rag_process question history_context in
  let* _ := history_append (mkTurn question answer) in
  ret answer.

End Pipeline.

(** * Construction and the interactive session *)

(** ** [__init__] *)

Section Construction.

(** [int(s)] on a string: the integer it denotes, or the [ValueError]. *)
Variable int_of_str : str -> Exception + Z.

(** [a or b] on two optional strings: [a] when it is a non-empty string. *)
Definition or_else (a b : option str) : option str :=
  match a with
  | Some s => if truthy s then Some s else b
  | None => b
  end.

(** [int(os.getenv(name, default))] for an integer [default]. *)
Definition getenv_int (environ : gmap str str) (name : str) (default : Z)
  : Exception + Z :=
  match environ !! name with
  | Some s => int_of_str s
  | None => inr default
  end.

(** Lines 13-56 on the environment that [load_dotenv] left: the exception
    raised, or the attributes of the new instance.  The provider objects
    and the HTTP session are built without a request. *)
Definition __init__ (environ : gmap str str) (api_key : option str)
  : Exception + HueChatbot :=
  let api_key := or_else api_key (environ !! py "GEMINI_API_KEY") in
  match api_key with
  | Some (_ :: _) =>
    match getenv_int environ (py "MAX_SEARCH_RESULTS") 2 with
    | inl e => inl e
    | inr max_search_results =>
      match getenv_int environ (py "MAX_HISTORY") 5 with
      | inl e => inl e
      | inr max_history =>
        match getenv_int environ (py "REQUEST_TIMEOUT") 5 with
        | inl e => inl e
        | inr request_timeout =>
          inr (mkHueChatbot max_search_results max_history [] ∅)
        end
      end
    end
  | _ =>
    inl (mkException
           (py "API key not found. Please set GEMINI_API_KEY in .env file or pass as parameter."))
  end.

End Construction.

(** ** [start] *)

(** What one call of [input] does: it returns a line, the user interrupts
    it, or it raises (end of input, for one). *)
Inductive Input :=
| Line (text : str)
| KeyboardInterrupt
| InputRaises (e : Exception).

(** Where the loop of [start] stands when the inputs are used up. *)
Inductive Session := Ended | Prompting.

Definition termination_tokens : list str :=
  [py "quit"; py "exit"; py "thoát"; py "q"].

Section Interactive.

Context {World : Type}.
Variable lower : str -> str.
Variable ddgs_text : str -> Z -> World -> (Exception + list SearchResult) * World.
Variable as_completed : list str -> World -> list (Exception + Soup) * World.
Variable generate_content : str -> World -> (Exception + str) * World.

(** The loop of lines 267-284 over the successive outcomes of [input]. *)
Fixpoint start (inputs : list Input) : M Session :=
  match inputs with
  | [] => ret Prompting
  | Line text :: rest =>
    let question := strip text in
    if bool_decide (lower question ∈ termination_tokens) then ret Ended
    else if negb (truthy question) then start rest
    else
      bind (chat lower ddgs_text as_completed generate_content question)
        (fun _ => start rest)
  | KeyboardInterrupt :: _ => ret Ended
  | InputRaises e :: rest => start rest
  end.

End Interactive.

(** * The vocabulary of the statements *)

(** How many entries of a log satisfy [p]. *)
Definition calls (p : Event -> bool) (l : list Event) : nat :=
  length (filter (fun ev => p ev = true) l).

Definition is_ddgs_text (ev : Event) : bool :=
  match ev with EvDdgsText _ _ => true | _ => false end.

Definition is_process_urls (ev : Event) : bool :=
  match ev with EvProcessUrls _ => true | _ => false end.

Definition is_generate_answer (ev : Event) : bool :=
  match ev with EvGenerateAnswer _ _ _ => true | _ => false end.

(** The instance after [self.search_cache[query] = urls]. *)
Definition with_cache (bot : HueChatbot) (query : str) (urls : list str)
  : HueChatbot :=
  mkHueChatbot (max_search_results bot) (max_history bot) (history bot)
    (<[query := urls]> (search_cache bot)).

(** The value of the parameter [max_results] after lines 60-61. *)
Definition effective_max_results (bot : HueChatbot) (max_results : option Z) : Z :=
  match max_results with
  | None => max_search_results bot
  | Some n => n
  end.

(** The query sent to the provider (line 70). *)
Definition search_query_of (query : str) : str := query ++ py " Huế, Việt Nam".

(** What a stage leaves alone: the history, the configuration, and the
    counts of aggregator and generator entries. *)
Definition only_searched {World : Type} (st st' : @State World) : Prop :=
  history (self st') = history (self st)
  /\ max_history (self st') = max_history (self st)
  /\ max_search_results (self st') = max_search_results (self st)
  /\ calls is_process_urls (log st') = calls is_process_urls (log st)
  /\ calls is_generate_answer (log st') = calls is_generate_answer (log st).

(** The four kinds of string [_rag_process] returns. *)
Definition rag_outcome (answer : str) : Prop :=
  answer = no_information_found
  \/ answer = could_not_extract
  \/ (exists text, answer = strip text)
  \/ (exists e, answer = py "Lỗi khi gọi AI Gemini: " ++ exc_str e).

(** * Concrete services and runs *)

Definition url_a : str := py "https://hue.example/dai-noi".
Definition url_b : str := py "https://hue.example/bun-bo".

Definition fresh_bot : HueChatbot := mkHueChatbot 2 5 [] ∅.

(** A provider whose first request raises and whose later requests answer;
    the world counts the requests. *)
Definition flaky_ddgs (search_query : str) (n : Z) (w : nat)
  : (Exception + list SearchResult) * nat :=
  match w with
  | O => (inl (mkException (py "timed out")), 1%nat)
  | S _ => (inr [mkSearchResult (py "Dai Noi") url_a []], S w)
  end.

(** A provider that always answers with the same two records. *)
Definition steady_ddgs (search_query : str) (n : Z) (w : nat)
  : (Exception + list SearchResult) * nat :=
  (inr [mkSearchResult (py "Dai Noi") url_a [];
        mkSearchResult (py "Bun bo") url_b []], S w).

Definition flaky_first :=
  _search_duckduckgo ascii_lower flaky_ddgs (py "Dai Noi") None
    (mkState fresh_bot 0%nat []).

Definition flaky_second :=
  _search_duckduckgo ascii_lower flaky_ddgs (py "Dai Noi") None (snd flaky_first).

(** The instance configured with [MAX_SEARCH_RESULTS=0]. *)
Definition zero_cap_search :=
  _search_duckduckgo ascii_lower steady_ddgs (py "Dai Noi") None
    (mkState (mkHueChatbot 0 5 [] ∅) 0%nat []).

(** A fetched page without content regions whose visible text is [n]
    letters. *)
Definition plain_page (n : nat) : Exception + Soup :=
  inr (mkSoup (fun _ => None) (replicate n 97%N)).

(** Four pages complete in this order, a fifth after them. *)
Definition crowded_pool (urls : list str) (w : nat)
  : list (Exception + Soup) * nat :=
  ([plain_page 1998; plain_page 1998; plain_page 998; plain_page 3000;
    plain_page 500], S w).

Definition crowded_combined : str :=
  fst (_process_urls_parallel crowded_pool [url_a; url_b]
         (mkState fresh_bot 0%nat [])).

(** A provider whose records all point to blocked sites. *)
Definition social_ddgs (search_query : str) (n : Z) (w : nat)
  : (Exception + list SearchResult) * nat :=
  (inr [mkSearchResult (py "Hue") (py "https://www.Facebook.com/hue") [];
        mkSearchResult (py "Hue") (py "https://youtube.com/watch?v=hue") []], S w).

(** A pool in which one page has ten letters of text and the other fetch
    raised. *)
Definition quiet_pool (urls : list str) (w : nat)
  : list (Exception + Soup) * nat :=
  ([plain_page 10; inl (mkException (py "404 Not Found"))], S w).

(** A pool in which one page with two hundred letters of text completes. *)
Definition steady_pool (urls : list str) (w : nat)
  : list (Exception + Soup) * nat :=
  ([plain_page 200], S w).

(** A generation provider that rejects every request. *)
Definition failing_gemini (prompt : str) (w : nat) : (Exception + str) * nat :=
  (inl (mkException (py "429 quota exceeded")), S w).

(** A generation provider that answers every request. *)
Definition steady_gemini (prompt : str) (w : nat) : (Exception + str) * nat :=
  (inr (py " Dai Noi la hoang thanh cua trieu Nguyen. "), S w).

Definition turn1 : Turn := mkTurn (py "Dai Noi o dau?") (py "O bo bac song Huong.").
Definition turn2 : Turn := mkTurn (py "Bun bo la gi?") (py "Mon bun cua Hue.").

(** The instance configured with [MAX_HISTORY=0] after two turns. *)
Definition zero_window_bot : HueChatbot := mkHueChatbot 2 0 [turn1; turn2] ∅.

Definition turn3 : Turn := mkTurn (py "Song Huong o dau?") (py "Chay qua thanh pho Hue.").

(** The instance configured with [MAX_HISTORY=2] after three turns. *)
Definition two_window_bot : HueChatbot := mkHueChatbot 2 2 [turn1; turn2; turn3] ∅.

(** Five futures complete: three pages of two hundred letters, one page
    without text and one fetch that raised. *)
Definition mixed_pool (urls : list str) (w : nat)
  : list (Exception + Soup) * nat :=
  ([plain_page 200; plain_page 0; plain_page 200;
    inl (mkException (py "timed out")); plain_page 200], S w).

(** One whole conversation turn against the steady services. *)
Definition steady_chat :=
  chat ascii_lower steady_ddgs steady_pool steady_gemini (py "Dai Noi o dau?")
    (mkState fresh_bot 0%nat []).

(** The URLs of the provider's records that are not blocked, in the
    provider's order. *)
Definition usable_hrefs (lower : str -> str) (results : list SearchResult)
  : list str :=
  filter (fun url => blocked lower url = false) (href <$> results).

(** Every list in the cache holds at most [n] URLs, none of them blocked. *)
Definition cache_within (lower : str -> str) (n : Z) (bot : HueChatbot) : Prop :=
  forall query urls,
    search_cache bot !! query = Some urls ->
    len urls <= n /\ Forall (fun url => blocked lower url = false) urls.

(** Blocked and usable records, mixed. *)
Definition mixed_records : list SearchResult :=
  [mkSearchResult (py "Hue") (py "https://www.Facebook.com/hue") [];
   mkSearchResult (py "Dai Noi") url_a [];
   mkSearchResult (py "Hue") (py "https://hue.example/guide.PDF") [];
   mkSearchResult (py "Bun bo") url_b [];
   mkSearchResult (py "Hue") (py "https://hue.example/song-huong") []].

Definition mixed_ddgs (search_query : str) (n : Z) (w : nat)
  : (Exception + list SearchResult) * nat :=
  (inr mixed_records, S w).

(** The records of [social_ddgs]. *)
Definition social_records : list SearchResult :=
  [mkSearchResult (py "Hue") (py "https://www.Facebook.com/hue") [];
   mkSearchResult (py "Hue") (py "https://youtube.com/watch?v=hue") []].

(** An input that ends the loop of [start]: a termination token, in any
    case and with any surrounding whitespace, or an interrupt. *)
Definition is_ending (lower : str -> str) (i : Input) : bool :=
  match i with
  | Line text => bool_decide (lower (strip text) ∈ termination_tokens)
  | KeyboardInterrupt => true
  | InputRaises _ => false
  end.

(** The inputs before the first one that ends the loop. *)
Fixpoint before_end (lower : str -> str) (inputs : list Input) : list Input :=
  match inputs with
  | [] => []
  | i :: rest => if is_ending lower i then [] else i :: before_end lower rest
  end.

(** The stripped text of a line that was entered. *)
Definition entered (i : Input) : option str :=
  match i with
  | Line text => Some (strip text)
  | _ => None
  end.

(** The questions of a session: the non-blank lines entered before the
    loop ended, stripped, in the order entered. *)
Definition questions_of (lower : str -> str) (inputs : list Input) : list str :=
  filter (fun question => question <> []) (omap entered (before_end lower inputs)).

(** A short session: a blank line, a question, an input error, a second
    question, the token in capitals, and a line that is never read. *)
Definition short_session : list Input :=
  [Line (py "   "); Line (py " Dai Noi o dau? ");
   InputRaises (mkException (py "EOF when reading a line"));
   Line (py "Bun bo la gi?"); Line (py " QUIT "); Line (py "Song Huong?")].

(** A result the aggregator keeps (line 144). *)
Definition usable_content (content : str) : bool :=
  truthy content && (len (strip content) >? 50).

(** Results, each followed by its blank line, joined. *)
Definition joined (contents : list str) : str :=
  mjoin ((fun content => content ++ [10; 10]%N) <$> contents).

(** The results the aggregator keeps among those that completed. *)
Definition usable_contents (contents : list str) : list str :=
  filter (fun content => usable_content content = true) contents.

(** [int(s)] restricted to strings of ASCII digits; the constructor itself
    takes [int] as a parameter, this instance serves the examples. *)
Definition digits_int (s : str) : Exception + Z :=
  if truthy s && forallb (fun c => (48 <=? c) && (c <=? 57))%N s
  then inr (fold_left (fun n c => 10 * n + Z.of_N (c - 48)) s 0)
  else inl (mkException (py "invalid literal for int() with base 10")).

(** A page whose article region is short and whose main region is long. *)
Definition short_article_page : Soup :=
  mkSoup
    (fun selector =>
       if bool_decide (selector = py "article") then Some (replicate 40 97%N)
       else if bool_decide (selector = py "main") then Some (replicate 500 98%N)
       else None)
    (replicate 900 99%N).

(** The instance configured with [MAX_HISTORY=-1] after three turns. *)
Definition negative_window_bot : HueChatbot :=
  mkHueChatbot 2 (-1) [turn1; turn2; turn3] ∅.

(** An environment with a key and a cap of three. *)
Definition keyed_environ : gmap str str :=
  <[py "GEMINI_API_KEY" := py "k-123"]> (<[py "MAX_SEARCH_RESULTS" := py "3"]> ∅).

(** An environment whose key is set to the empty string. *)
Definition keyless_environ : gmap str str :=
  <[py "GEMINI_API_KEY" := []]> (<[py "MAX_HISTORY" := py "7"]> ∅).

(** * Properties *)

Section SearchFacts.

Context {World : Type}.
Variable lower : str -> str.
Variable ddgs_text : str -> Z -> World -> (Exception + list SearchResult) * World.

Implicit Types (st : @State World) (query : str) (max_results : option Z).

Lemma search_hit st query max_results urls :
  search_cache (self st) !! query = Some urls ->
  _search_duckduckgo lower ddgs_text query max_results st = (urls, st).
Proof.
  intros Hhit. unfold _search_duckduckgo, bind, get_self, ret.
  now rewrite Hhit.
Qed.

Lemma search_miss_ok st query max_results results w' :
  search_cache (self st) !! query = None ->
  ddgs_text (search_query_of query)
    (effective_max_results (self st) max_results * 2) (world st)
    = (inr results, w') ->
  _search_duckduckgo lower ddgs_text query max_results st
  = (collect_urls lower results [] (effective_max_results (self st) max_results),
     mkState
       (with_cache (self st) query
          (collect_urls lower results []
             (effective_max_results (self st) max_results)))
       w'
       (log st ++ [EvDdgsText (search_query_of query)
                     (effective_max_results (self st) max_results * 2)])).
Proof.
  intros Hmiss Hfetch.
  unfold _search_duckduckgo, bind, get_self, ret, emit, request, cache_store.
  rewrite Hmiss. cbn [self world log].
  unfold search_query_of, effective_max_results in Hfetch.
  destruct max_results; rewrite Hfetch; reflexivity.
Qed.

Lemma search_miss_raises st query max_results e w' :
  search_cache (self st) !! query = None ->
  ddgs_text (search_query_of query)
    (effective_max_results (self st) max_results * 2) (world st)
    = (inl e, w') ->
  _search_duckduckgo lower ddgs_text query max_results st
  = ([], mkState (self st) w'
           (log st ++ [EvDdgsText (search_query_of query)
                         (effective_max_results (self st) max_results * 2)])).
Proof.
  intros Hmiss Hfetch.
  unfold _search_duckduckgo, bind, get_self, ret, emit, request.
  rewrite Hmiss. cbn [self world log].
  unfold search_query_of, effective_max_results in Hfetch.
  destruct max_results; rewrite Hfetch; reflexivity.
Qed.

End SearchFacts.

(** ** The query cache *)

(** C1, as amended: when the provider request of the first call does not
    raise, the first call stores the list it returns under the query, and a
    second call with the same query returns that list and leaves the whole
    state, the world and the log included, as it was: the provider is not
    asked again. *)
Theorem C1_second_search_served_from_cache
  {World : Type} (lower : str -> str)
  (ddgs_text : str -> Z -> World -> (Exception + list SearchResult) * World)
  (st : State) (query : str) (max_results1 max_results2 : option Z)
  (results : list SearchResult) (w' : World) :
  search_cache (self st) !! query = None ->
  ddgs_text (search_query_of query)
    (effective_max_results (self st) max_results1 * 2) (world st)
    = (inr results, w') ->
  let first := _search_duckduckgo lower ddgs_text query max_results1 st in
  let second := _search_duckduckgo lower ddgs_text query max_results2 (snd first) in
  search_cache (self (snd first)) !! query = Some (fst first)
  /\ fst second = fst first
  /\ snd second = snd first
  /\ log (snd first)
     = log st ++ [EvDdgsText (search_query_of query)
                    (effective_max_results (self st) max_results1 * 2)].
Proof.
  intros Hmiss Hfetch first second.
  assert (Hstored : search_cache (self (snd first)) !! query = Some (fst first)).
  { subst first.
    rewrite (search_miss_ok lower ddgs_text st query max_results1 results w' Hmiss Hfetch).
    cbn [fst snd self with_cache search_cache]. apply lookup_insert_eq. }
  subst second.
  rewrite (search_hit lower ddgs_text (snd first) query max_results2 _ Hstored).
  repeat split; try assumption.
  subst first.
  now rewrite (search_miss_ok lower ddgs_text st query max_results1 results w' Hmiss Hfetch).
Qed.

Lemma C1_second_search_served_from_cache_witness :
  let st := mkState fresh_bot 0%nat [] in
  let first := _search_duckduckgo ascii_lower steady_ddgs (py "Dai Noi") None st in
  let second :=
    _search_duckduckgo ascii_lower steady_ddgs (py "Dai Noi") None (snd first) in
  search_cache (self (snd first)) !! py "Dai Noi" = Some (fst first)
  /\ fst second = fst first
  /\ snd second = snd first
  /\ log (snd first)
     = log st ++ [EvDdgsText (search_query_of (py "Dai Noi"))
                    (effective_max_results (self st) None * 2)].
Proof.
  apply (C1_second_search_served_from_cache ascii_lower steady_ddgs
           (mkState fresh_bot 0%nat []) (py "Dai Noi") None None
           [mkSearchResult (py "Dai Noi") url_a [];
            mkSearchResult (py "Bun bo") url_b []] 1%nat).
  - vm_compute. reflexivity.
  - reflexivity.
Defined.

(** C1 fails as stated: with a provider that raises on the first request,
    the first call returns the empty list and stores nothing, and the second
    call asks the provider again and returns another list. *)
Lemma C1_counterexample_first_call_raises :
  search_cache fresh_bot !! py "Dai Noi" = None
  /\ fst flaky_first = []
  /\ search_cache (self (snd flaky_first)) !! py "Dai Noi" = None
  /\ fst flaky_second = [url_a]
  /\ fst flaky_second <> fst flaky_first
  /\ calls is_ddgs_text (log (snd flaky_first)) = 1%nat
  /\ calls is_ddgs_text (log (snd flaky_second)) = 2%nat.
Proof.
  repeat split; try (vm_compute; reflexivity).
  vm_compute. discriminate.
Qed.

(** When the request raises, nothing is stored and the next call with the
    query asks the provider again. *)
Lemma search_failure_is_not_cached
  {World : Type} (lower : str -> str)
  (ddgs_text : str -> Z -> World -> (Exception + list SearchResult) * World)
  (st : State) (query : str) (max_results : option Z) (e : Exception) (w' : World) :
  search_cache (self st) !! query = None ->
  ddgs_text (search_query_of query)
    (effective_max_results (self st) max_results * 2) (world st) = (inl e, w') ->
  fst (_search_duckduckgo lower ddgs_text query max_results st) = []
  /\ search_cache (self (snd (_search_duckduckgo lower ddgs_text query max_results st)))
     !! query = None.
Proof.
  intros Hmiss Hfetch.
  rewrite (search_miss_raises lower ddgs_text st query max_results e w' Hmiss Hfetch).
  split; [reflexivity | exact Hmiss].
Qed.

(** ** The search client: filtering and the cap *)

Section CollectFacts.

Variable lower : str -> str.

Lemma collect_urls_not_blocked results : forall urls max_results,
  Forall (fun url => blocked lower url = false) urls ->
  Forall (fun url => blocked lower url = false)
    (collect_urls lower results urls max_results).
Proof.
  induction results as [|r rest IH]; intros urls max_results Hurls; cbn [collect_urls].
  - exact Hurls.
  - destruct (blocked lower (href r)) eqn:Hb; cbn [negb].
    + destruct (len urls >=? max_results); [exact Hurls | now apply IH].
    + assert (Hurls' : Forall (fun url => blocked lower url = false) (urls ++ [href r])).
      { apply Forall_app; split; [exact Hurls | now constructor]. }
      destruct (len (urls ++ [href r]) >=? max_results); [exact Hurls' | now apply IH].
Qed.

Lemma len_snoc {A} (l : list A) (x : A) : len (l ++ [x]) = len l + 1.
Proof. unfold len. rewrite length_app. cbn. lia. Qed.

Lemma collect_urls_capped results : forall urls max_results,
  len urls < max_results ->
  len (collect_urls lower results urls max_results) <= max_results.
Proof.
  induction results as [|r rest IH]; intros urls max_results Hlt; cbn [collect_urls].
  - lia.
  - destruct (negb (blocked lower (href r))).
    + destruct (len (urls ++ [href r]) >=? max_results) eqn:Hge.
      * rewrite len_snoc in *. lia.
      * apply IH. lia.
    + destruct (len urls >=? max_results) eqn:Hge; [lia | now apply IH].
Qed.

(** Whatever the cap, the loop adds to [urls] until the list is at least
    as long as the cap, never beyond one element past its start. *)
Lemma collect_urls_at_most_one_past results : forall urls max_results,
  len (collect_urls lower results urls max_results)
  <= Z.max max_results (len urls + 1).
Proof.
  induction results as [|r rest IH]; intros urls max_results; cbn [collect_urls].
  - lia.
  - destruct (negb (blocked lower (href r))).
    + destruct (len (urls ++ [href r]) >=? max_results) eqn:Hge.
      * rewrite len_snoc. lia.
      * specialize (IH (urls ++ [href r]) max_results).
        rewrite len_snoc in *. lia.
    + destruct (len urls >=? max_results) eqn:Hge; [lia |].
      specialize (IH urls max_results). lia.
Qed.

End CollectFacts.

(** On a cache miss with a cap of at least one, the list returned holds at
    most [max_results] URLs, none of them blocked. *)
Lemma search_miss_capped_and_filtered
  {World : Type} (lower : str -> str)
  (ddgs_text : str -> Z -> World -> (Exception + list SearchResult) * World)
  (st : State) (query : str) (max_results : option Z) :
  search_cache (self st) !! query = None ->
  1 <= effective_max_results (self st) max_results ->
  let urls := fst (_search_duckduckgo lower ddgs_text query max_results st) in
  len urls <= effective_max_results (self st) max_results
  /\ Forall (fun url => blocked lower url = false) urls.
Proof.
  intros Hmiss Hcap urls. subst urls.
  destruct (ddgs_text (search_query_of query)
              (effective_max_results (self st) max_results * 2) (world st))
    as [[e | results] w'] eqn:Hfetch.
  - rewrite (search_miss_raises lower ddgs_text st query max_results e w' Hmiss Hfetch).
    cbn [fst]. split; [unfold len; cbn; lia | constructor].
  - rewrite (search_miss_ok lower ddgs_text st query max_results results w' Hmiss Hfetch).
    cbn [fst]. split.
    + apply collect_urls_capped. unfold len; cbn; lia.
    + apply collect_urls_not_blocked. constructor.
Qed.

(** C5 at [max_results = 0]: the loop appends the first URL that is not
    blocked before it compares the length with the cap, so one URL is
    returned where the cap allows none. *)
Theorem C5_zero_cap_returns_one_url :
  effective_max_results (mkHueChatbot 0 5 [] ∅) None = 0
  /\ fst zero_cap_search = [url_a]
  /\ len (fst zero_cap_search) = 1
  /\ search_cache (self (snd zero_cap_search)) !! py "Dai Noi" = Some [url_a].
Proof. repeat split; vm_compute; reflexivity. Qed.

(** ** The content extractor *)

Lemma len_app {A} (l1 l2 : list A) : len (l1 ++ l2) = len l1 + len l2.
Proof. unfold len. rewrite length_app. lia. Qed.

Lemma len_nonneg {A} (l : list A) : 0 <= len l.
Proof. unfold len. lia. Qed.

Lemma len_take {A} (n : nat) (l : list A) : len (take n l) = Z.min (Z.of_nat n) (len l).
Proof. unfold len. rewrite length_take. lia. Qed.

Lemma len_marker : len (py "...") = 3.
Proof. reflexivity. Qed.

Lemma truncate_long (text : str) :
  2000 < len text -> truncate text = take 2000 text ++ py "...".
Proof.
  intros Hlong. unfold truncate.
  destruct (len text >? 2000) eqn:Hgt; [reflexivity | lia].
Qed.

Lemma truncate_short (text : str) : len text <= 2000 -> truncate text = text.
Proof.
  intros Hshort. unfold truncate.
  destruct (len text >? 2000) eqn:Hgt; [lia | reflexivity].
Qed.

Lemma len_truncate (text : str) : len (truncate text) <= 2000 + len (py "...").
Proof.
  destruct (Z_lt_le_dec 2000 (len text)) as [Hlong | Hshort].
  - rewrite (truncate_long _ Hlong), len_app, len_take. lia.
  - rewrite (truncate_short _ Hshort). pose proof len_marker. lia.
Qed.

Lemma len_extract_article_fast (fetched : Exception + Soup) :
  len (_extract_article_fast fetched) <= 2000 + len (py "...").
Proof.
  destruct fetched as [e | soup]; cbn [_extract_article_fast].
  - rewrite len_marker. unfold len; cbn; lia.
  - apply len_truncate.
Qed.

(** C6: the text the extractor returns is at most 2000 characters plus the
    marker long; for a page that was fetched, it is the first 2000
    characters of the extracted text followed by the marker exactly when the
    extracted text is longer than 2000 characters, and the extracted text
    itself otherwise; a failed fetch gives the empty string. *)
Theorem C6_extracted_text_bounded_and_marked
  (fetched : Exception + Soup) (soup : Soup) (e : Exception) :
  len (_extract_article_fast fetched) <= 2000 + len (py "...")
  /\ (_extract_article_fast (inr soup) = take 2000 (extracted_text soup) ++ py "..."
      <-> 2000 < len (extracted_text soup))
  /\ (len (extracted_text soup) <= 2000
      -> _extract_article_fast (inr soup) = extracted_text soup)
  /\ _extract_article_fast (inl e) = [].
Proof.
  split; [apply len_extract_article_fast |].
  split; [| split; [apply truncate_short | reflexivity]].
  cbn [_extract_article_fast]. split.
  - intros Hcut.
    destruct (Z_lt_le_dec 2000 (len (extracted_text soup))) as [Hlong | Hshort];
      [exact Hlong |].
    rewrite (truncate_short _ Hshort) in Hcut.
    apply (f_equal len) in Hcut.
    rewrite len_app, len_take, len_marker in Hcut. lia.
  - apply truncate_long.
Qed.

(** ** The fetch aggregator *)

Lemma accumulate_bounded contents : forall combined_text successful_count,
  Forall (fun content => len content <= 2000 + len (py "...")) contents ->
  len combined_text <= 5000 ->
  len (fst (accumulate contents combined_text successful_count))
  <= 5000 + (2000 + len (py "...") + len [10; 10]%N).
Proof.
  rewrite len_marker.
  induction contents as [|content rest IH];
    intros combined_text successful_count Hall Hsmall; cbn [accumulate].
  - cbn [fst]. unfold len at 2. cbn. lia.
  - inversion Hall as [|? ? Hcontent Hrest]; subst.
    destruct (truthy content && (len (strip content) >? 50)).
    + destruct (len (combined_text ++ content ++ [10; 10]%N) >? 5000) eqn:Hover.
      * cbn [fst]. rewrite !len_app. unfold len at 3 4. cbn. lia.
      * apply IH; [exact Hrest | lia].
    + now apply IH.
Qed.

(** The loop stops at the first result that takes the buffer past 5000
    characters: whatever completes later is not read. *)
Lemma accumulate_stops_over_threshold contents later : forall combined_text successful_count,
  5000 < len (fst (accumulate contents combined_text successful_count)) ->
  len combined_text <= 5000 ->
  accumulate (contents ++ later) combined_text successful_count
  = accumulate contents combined_text successful_count.
Proof.
  induction contents as [|content rest IH];
    intros combined_text successful_count Hover Hsmall; cbn [accumulate app] in *.
  - cbn [fst] in Hover. lia.
  - destruct (truthy content && (len (strip content) >? 50)).
    + destruct (len (combined_text ++ content ++ [10; 10]%N) >? 5000) eqn:Hgt;
        [reflexivity |].
      apply IH; [exact Hover | lia].
    + now apply IH.
Qed.

(** C3, as amended: the combined text is at most 5000 characters plus one
    capped document, its marker and the blank line appended after it, that
    is 7005 characters, whatever completes and in whatever order. *)
Theorem C3_combined_text_bounded
  {World : Type} (as_completed : list str -> World -> list (Exception + Soup) * World)
  (urls : list str) (st : State) :
  len (fst (_process_urls_parallel as_completed urls st))
  <= 5000 + (2000 + len (py "...") + len [10; 10]%N).
Proof.
  unfold _process_urls_parallel, bind, emit, request, ret. cbn [world self log].
  destruct (as_completed urls (world st)) as [completed w']. cbn [fst].
  apply accumulate_bounded.
  - apply Forall_fmap, Forall_forall. intros fetched _.
    apply len_extract_article_fast.
  - unfold len; cbn; lia.
Qed.

(** C3 fails as stated: three documents fill the buffer to exactly 5000
    characters, the fourth is a capped document of 2003 characters, and
    with its blank line the buffer stops at 7005 characters, past the
    claimed 7003. *)
Lemma C3_counterexample_separator_counts :
  len crowded_combined = 7005
  /\ 5000 < len crowded_combined
  /\ ~ len crowded_combined <= 5000 + (2000 + len (py "..."))
  /\ crowded_combined
     = fst (accumulate
              (_extract_article_fast
                 <$> [plain_page 1998; plain_page 1998; plain_page 998; plain_page 3000])
              [] 0).
Proof.
  assert (Hlen : len crowded_combined = 7005) by (vm_compute; reflexivity).
  split; [exact Hlen |].
  split; [rewrite Hlen; lia |].
  split; [rewrite Hlen, len_marker; lia |].
  vm_compute. reflexivity.
Qed.

(** ** Whitespace *)

Lemma lstrip_all_space (s : str) :
  Forall (fun c => isspace c = true) s -> lstrip s = [].
Proof.
  induction 1 as [|c s Hc _ IH]; cbn [lstrip]; [reflexivity |].
  now rewrite Hc.
Qed.

Lemma strip_all_space (s : str) :
  Forall (fun c => isspace c = true) s -> strip s = [].
Proof.
  intros Hall. unfold strip, rstrip. now rewrite (lstrip_all_space s Hall).
Qed.

Lemma lstrip_nil_all_space (s : str) :
  lstrip s = [] -> Forall (fun c => isspace c = true) s.
Proof.
  induction s as [|c s IH]; cbn [lstrip]; [constructor |].
  destruct (isspace c) eqn:Hc; [| discriminate].
  intros Hs. constructor; [exact Hc | now apply IH].
Qed.

(** [s.strip()] is empty exactly when [s] is empty or all whitespace. *)
Lemma strip_nil_iff (s : str) :
  strip s = [] <-> Forall (fun c => isspace c = true) s.
Proof.
  split; [| apply strip_all_space].
  unfold strip, rstrip. intros Hs.
  apply (f_equal reverse) in Hs. rewrite reverse_involutive in Hs.
  change (reverse (@nil N)) with (@nil N) in Hs.
  apply lstrip_nil_all_space in Hs.
  apply lstrip_nil_all_space.
  destruct (lstrip s) as [|c rest] eqn:Hl; [reflexivity |].
  exfalso.
  assert (Hc : isspace c = true).
  { rewrite Forall_reverse in Hs. now inversion Hs. }
  clear Hs. induction s as [|d s IH]; cbn [lstrip] in Hl; [discriminate |].
  destruct (isspace d) eqn:Hd; [now apply IH |].
  inversion Hl; subst. congruence.
Qed.

(** ** The log and the frame of each stage *)

Lemma calls_snoc (p : Event -> bool) (l : list Event) (ev : Event) :
  calls p (l ++ [ev]) = (calls p l + (if p ev then 1 else 0))%nat.
Proof.
  unfold calls. rewrite filter_app, length_app. f_equal.
  cbn. destruct (p ev); cbn.
  - rewrite decide_True by reflexivity. reflexivity.
  - rewrite decide_False by discriminate. reflexivity.
Qed.

Section StageFacts.

Context {World : Type}.
Variable lower : str -> str.
Variable ddgs_text : str -> Z -> World -> (Exception + list SearchResult) * World.
Variable as_completed : list str -> World -> list (Exception + Soup) * World.
Variable generate_content : str -> World -> (Exception + str) * World.

Implicit Types (st : @State World).

Lemma search_frame st query max_results :
  only_searched st (snd (_search_duckduckgo lower ddgs_text query max_results st)).
Proof.
  destruct (search_cache (self st) !! query) as [urls |] eqn:Hcache.
  - rewrite (search_hit lower ddgs_text st query max_results urls Hcache).
    unfold only_searched. cbn [snd]. auto.
  - destruct (ddgs_text (search_query_of query)
                (effective_max_results (self st) max_results * 2) (world st))
      as [[e | results] w'] eqn:Hfetch.
    + rewrite (search_miss_raises lower ddgs_text st query max_results e w' Hcache Hfetch).
      unfold only_searched. cbn [snd self log]. rewrite !calls_snoc.
      cbn [is_process_urls is_generate_answer]. rewrite !Nat.add_0_r. auto.
    + rewrite (search_miss_ok lower ddgs_text st query max_results results w' Hcache Hfetch).
      unfold only_searched.
      cbn [snd self log with_cache history max_history max_search_results].
      rewrite !calls_snoc.
      cbn [is_process_urls is_generate_answer]. rewrite !Nat.add_0_r. auto.
Qed.

Lemma process_urls_run st urls :
  _process_urls_parallel as_completed urls st
  = (fst (accumulate (_extract_article_fast <$> fst (as_completed urls (world st))) [] 0),
     mkState (self st) (snd (as_completed urls (world st)))
       (log st ++ [EvProcessUrls urls])).
Proof.
  unfold _process_urls_parallel, bind, emit, request, ret. cbn [world self log].
  destruct (as_completed urls (world st)) as [completed w']; cbn [fst snd]; reflexivity.
Qed.

Lemma generate_answer_run st question context history_text :
  _generate_answer generate_content question context history_text st
  = (match fst (generate_content (build_prompt question context history_text) (world st)) with
     | inr text => strip text
     | inl e => py "Lỗi khi gọi AI Gemini: " ++ exc_str e
     end,
     mkState (self st)
       (snd (generate_content (build_prompt question context history_text) (world st)))
       (log st ++ [EvGenerateAnswer question context history_text])).
Proof.
  unfold _generate_answer, bind, emit, request, ret. cbn [world self log].
  destruct (generate_content (build_prompt question context history_text) (world st))
    as [[e | text] w']; cbn [fst snd]; reflexivity.
Qed.

(** The three ways [_rag_process] ends, by what the first two stages
    returned. *)
Lemma rag_process_no_urls st question history_text :
  fst (_search_duckduckgo lower ddgs_text question None st) = [] ->
  _rag_process lower ddgs_text as_completed generate_content question history_text st
  = (no_information_found, snd (_search_duckduckgo lower ddgs_text question None st)).
Proof.
  intros Hnone. unfold _rag_process, bind.
  destruct (_search_duckduckgo lower ddgs_text question None st) as [urls st1].
  cbn [fst snd] in *. subst urls. reflexivity.
Qed.

Lemma rag_process_blank_text st question history_text :
  let searched := _search_duckduckgo lower ddgs_text question None st in
  let extracted := _process_urls_parallel as_completed (fst searched) (snd searched) in
  fst searched <> [] ->
  strip (fst extracted) = [] ->
  _rag_process lower ddgs_text as_completed generate_content question history_text st
  = (could_not_extract, snd extracted).
Proof.
  intros searched extracted Hurls Hblank. subst extracted searched.
  unfold _rag_process, bind.
  destruct (_search_duckduckgo lower ddgs_text question None st) as [urls st1].
  cbn [fst snd] in *.
  destruct urls as [|url urls]; [congruence |]. cbn [truthy negb].
  destruct (_process_urls_parallel as_completed (url :: urls) st1) as [combined st2].
  cbn [fst snd] in *. now rewrite Hblank.
Qed.

Lemma rag_process_generates st question history_text :
  let searched := _search_duckduckgo lower ddgs_text question None st in
  let extracted := _process_urls_parallel as_completed (fst searched) (snd searched) in
  fst searched <> [] ->
  strip (fst extracted) <> [] ->
  _rag_process lower ddgs_text as_completed generate_content question history_text st
  = _generate_answer generate_content question (fst extracted) history_text (snd extracted).
Proof.
  intros searched extracted Hurls Htext. subst extracted searched.
  unfold _rag_process, bind.
  destruct (_search_duckduckgo lower ddgs_text question None st) as [urls st1].
  cbn [fst snd] in *.
  destruct urls as [|url urls]; [congruence |]. cbn [truthy negb].
  destruct (_process_urls_parallel as_completed (url :: urls) st1) as [combined st2].
  cbn [fst snd] in *.
  destruct (strip combined); [congruence | reflexivity].
Qed.

End StageFacts.

(** ** The orchestrator *)

(** C2: when the search client returns no URL, [_rag_process] returns the
    sentinel "Không tìm thấy thông tin." in the state the search left, and
    the log gains no entry of the fetch aggregator or of the answer
    generator. *)
Theorem C2_no_urls_short_circuits
  {World : Type} (lower : str -> str)
  (ddgs_text : str -> Z -> World -> (Exception + list SearchResult) * World)
  (as_completed : list str -> World -> list (Exception + Soup) * World)
  (generate_content : str -> World -> (Exception + str) * World)
  (st : State) (question history_text : str) :
  fst (_search_duckduckgo lower ddgs_text question None st) = [] ->
  let run :=
    _rag_process lower ddgs_text as_completed generate_content question history_text st in
  fst run = no_information_found
  /\ snd run = snd (_search_duckduckgo lower ddgs_text question None st)
  /\ calls is_process_urls (log (snd run)) = calls is_process_urls (log st)
  /\ calls is_generate_answer (log (snd run)) = calls is_generate_answer (log st).
Proof.
  intros Hnone run. subst run.
  rewrite (rag_process_no_urls lower ddgs_text as_completed generate_content
             st question history_text Hnone).
  cbn [fst snd].
  destruct (search_frame lower ddgs_text st question None) as (_ & _ & _ & Hp & Hg).
  auto.
Qed.

Lemma C2_no_urls_short_circuits_witness :
  let st := mkState fresh_bot 0%nat [] in
  let run :=
    _rag_process ascii_lower social_ddgs steady_pool steady_gemini
      (py "Dai Noi") [] st in
  fst run = no_information_found
  /\ snd run = snd (_search_duckduckgo ascii_lower social_ddgs (py "Dai Noi") None st)
  /\ calls is_process_urls (log (snd run)) = calls is_process_urls (log st)
  /\ calls is_generate_answer (log (snd run)) = calls is_generate_answer (log st).
Proof.
  apply (C2_no_urls_short_circuits ascii_lower social_ddgs steady_pool steady_gemini
           (mkState fresh_bot 0%nat []) (py "Dai Noi") []).
  vm_compute. reflexivity.
Defined.

(** C8: when the search client returned URLs and the combined text of the
    fetch aggregator is empty or all whitespace, [_rag_process] returns the
    sentinel "Không trích xuất được thông tin." in the state the aggregator
    left, and the log gains no entry of the answer generator. *)
Theorem C8_blank_text_short_circuits
  {World : Type} (lower : str -> str)
  (ddgs_text : str -> Z -> World -> (Exception + list SearchResult) * World)
  (as_completed : list str -> World -> list (Exception + Soup) * World)
  (generate_content : str -> World -> (Exception + str) * World)
  (st : State) (question history_text : str) :
  let searched := _search_duckduckgo lower ddgs_text question None st in
  let extracted := _process_urls_parallel as_completed (fst searched) (snd searched) in
  fst searched <> [] ->
  Forall (fun c => isspace c = true) (fst extracted) ->
  let run :=
    _rag_process lower ddgs_text as_completed generate_content question history_text st in
  fst run = could_not_extract
  /\ snd run = snd extracted
  /\ calls is_generate_answer (log (snd run)) = calls is_generate_answer (log st).
Proof.
  intros searched extracted Hurls Hblank run. subst run.
  apply strip_all_space in Hblank.
  rewrite (rag_process_blank_text lower ddgs_text as_completed generate_content
             st question history_text Hurls Hblank).
  cbn [fst snd]. split; [reflexivity |]. split; [reflexivity |].
  subst extracted. rewrite process_urls_run. cbn [snd log].
  rewrite calls_snoc. cbn [is_generate_answer]. rewrite Nat.add_0_r.
  subst searched.
  now destruct (search_frame lower ddgs_text st question None) as (_ & _ & _ & _ & Hg).
Qed.

Lemma C8_blank_text_short_circuits_witness :
  let st := mkState fresh_bot 0%nat [] in
  let searched := _search_duckduckgo ascii_lower steady_ddgs (py "Dai Noi") None st in
  let extracted := _process_urls_parallel quiet_pool (fst searched) (snd searched) in
  let run :=
    _rag_process ascii_lower steady_ddgs quiet_pool steady_gemini
      (py "Dai Noi") [] st in
  fst run = could_not_extract
  /\ snd run = snd extracted
  /\ calls is_generate_answer (log (snd run)) = calls is_generate_answer (log st).
Proof.
  apply (C8_blank_text_short_circuits ascii_lower steady_ddgs quiet_pool steady_gemini
           (mkState fresh_bot 0%nat []) (py "Dai Noi") []).
  - vm_compute. discriminate.
  - vm_compute. constructor.
Defined.

(** ** The answer generator *)

(** C4: when the generation request raises an exception [e],
    [_generate_answer] returns the string "Lỗi khi gọi AI Gemini: "
    followed by the text of [e]; the instance is left as it was. *)
Theorem C4_generation_failure_becomes_the_answer
  {World : Type}
  (generate_content : str -> World -> (Exception + str) * World)
  (st : State) (question context history_text : str) (e : Exception) (w' : World) :
  generate_content (build_prompt question context history_text) (world st) = (inl e, w') ->
  let run := _generate_answer generate_content question context history_text st in
  fst run = py "Lỗi khi gọi AI Gemini: " ++ exc_str e
  /\ (exists before after, fst run = before ++ exc_str e ++ after)
  /\ self (snd run) = self st.
Proof.
  intros Hraise run. subst run.
  rewrite generate_answer_run, Hraise. cbn [fst snd self].
  split; [reflexivity |]. split; [| reflexivity].
  exists (py "Lỗi khi gọi AI Gemini: "), []. now rewrite app_nil_r.
Qed.

Lemma C4_generation_failure_becomes_the_answer_witness :
  let run :=
    _generate_answer failing_gemini (py "Dai Noi o dau?") (py "Dai Noi ...") []
      (mkState fresh_bot 0%nat []) in
  fst run = py "Lỗi khi gọi AI Gemini: " ++ exc_str (mkException (py "429 quota exceeded"))
  /\ (exists before after,
        fst run = before ++ exc_str (mkException (py "429 quota exceeded")) ++ after)
  /\ self (snd run) = self (mkState fresh_bot 0%nat []).
Proof.
  apply (C4_generation_failure_becomes_the_answer failing_gemini
           (mkState fresh_bot 0%nat []) (py "Dai Noi o dau?") (py "Dai Noi ...") []
           (mkException (py "429 quota exceeded")) 1%nat).
  reflexivity.
Defined.

(** The orchestrator hands the generator's string on: a run that reaches
    the generator and whose request raises [e] returns the error string. *)
Lemma rag_process_survives_generation_failure
  {World : Type} (lower : str -> str)
  (ddgs_text : str -> Z -> World -> (Exception + list SearchResult) * World)
  (as_completed : list str -> World -> list (Exception + Soup) * World)
  (generate_content : str -> World -> (Exception + str) * World)
  (st : State) (question history_text : str) (e : Exception) (w' : World) :
  let searched := _search_duckduckgo lower ddgs_text question None st in
  let extracted := _process_urls_parallel as_completed (fst searched) (snd searched) in
  fst searched <> [] ->
  strip (fst extracted) <> [] ->
  generate_content (build_prompt question (fst extracted) history_text)
    (world (snd extracted)) = (inl e, w') ->
  fst (_rag_process lower ddgs_text as_completed generate_content question history_text st)
  = py "Lỗi khi gọi AI Gemini: " ++ exc_str e.
Proof.
  intros searched extracted Hurls Htext Hraise.
  rewrite (rag_process_generates lower ddgs_text as_completed generate_content
             st question history_text Hurls Htext).
  fold searched. fold extracted.
  now rewrite generate_answer_run, Hraise.
Qed.

(** ** The history *)

Section HistoryFacts.

Context {World : Type}.
Variable lower : str -> str.
Variable ddgs_text : str -> Z -> World -> (Exception + list SearchResult) * World.
Variable as_completed : list str -> World -> list (Exception + Soup) * World.
Variable generate_content : str -> World -> (Exception + str) * World.

Implicit Types (st : @State World).

Lemma rag_process_frame st question history_text :
  let run :=
    _rag_process lower ddgs_text as_completed generate_content question history_text st in
  history (self (snd run)) = history (self st)
  /\ max_history (self (snd run)) = max_history (self st)
  /\ rag_outcome (fst run).
Proof.
  intros run. subst run.
  pose proof (search_frame lower ddgs_text st question None) as (Hh & Hm & _).
  destruct (fst (_search_duckduckgo lower ddgs_text question None st)) as [|url urls]
    eqn:Hurls.
  - rewrite (rag_process_no_urls lower ddgs_text as_completed generate_content
               st question history_text Hurls).
    cbn [fst snd]. split; [exact Hh |]. split; [exact Hm |].
    left. reflexivity.
  - assert (Hsome : fst (_search_duckduckgo lower ddgs_text question None st) <> [])
      by (rewrite Hurls; discriminate).
    destruct (strip (fst (_process_urls_parallel as_completed
                (fst (_search_duckduckgo lower ddgs_text question None st))
                (snd (_search_duckduckgo lower ddgs_text question None st)))))
      as [|c rest] eqn:Htext.
    + rewrite (rag_process_blank_text lower ddgs_text as_completed generate_content
                 st question history_text Hsome Htext).
      rewrite process_urls_run. cbn [fst snd self].
      split; [exact Hh |]. split; [exact Hm |].
      right. left. reflexivity.
    + assert (Hfull : strip (fst (_process_urls_parallel as_completed
                (fst (_search_duckduckgo lower ddgs_text question None st))
                (snd (_search_duckduckgo lower ddgs_text question None st)))) <> [])
        by (rewrite Htext; discriminate).
      rewrite (rag_process_generates lower ddgs_text as_completed generate_content
                 st question history_text Hsome Hfull).
      rewrite generate_answer_run, process_urls_run. cbn [fst snd self].
      split; [exact Hh |]. split; [exact Hm |].
      match goal with
      | |- context [fst (generate_content ?p ?w)] =>
          destruct (fst (generate_content p w)) as [e | text]
      end.
      * right. right. right. exists e. reflexivity.
      * right. right. left. exists text. reflexivity.
Qed.

End HistoryFacts.

(** C9: every call of [chat] appends one turn to the history, made of the
    question and of the string the call returns; this string is a sentinel,
    a generated answer or the error string of a failed generation, and the
    turn is appended in every one of these cases. *)
Theorem C9_chat_appends_the_returned_answer
  {World : Type} (lower : str -> str)
  (ddgs_text : str -> Z -> World -> (Exception + list SearchResult) * World)
  (as_completed : list str -> World -> list (Exception + Soup) * World)
  (generate_content : str -> World -> (Exception + str) * World)
  (st : State) (question : str) :
  let run := chat lower ddgs_text as_completed generate_content question st in
  history (self (snd run)) = history (self st) ++ [mkTurn question (fst run)]
  /\ len (history (self (snd run))) = len (history (self st)) + 1
  /\ rag_outcome (fst run).
Proof.
  intros run.
  assert (Hrun : history (self (snd run)) = history (self st) ++ [mkTurn question (fst run)]
                 /\ rag_outcome (fst run)).
  { subst run. unfold chat, bind, get_self, history_append, ret.
    pose proof (rag_process_frame lower ddgs_text as_completed generate_content
                  st question (history_context_of (self st))) as Hframe.
    cbv zeta in Hframe. destruct Hframe as (Hh & _ & Hout).
    destruct (_rag_process lower ddgs_text as_completed generate_content question
                (history_context_of (self st)) st) as [answer st1].
    cbn [fst snd self history] in *. now rewrite Hh. }
  destruct Hrun as [Hh Hout].
  split; [exact Hh |]. split; [| exact Hout].
  rewrite Hh. apply len_snoc.
Qed.

(** The history window for a window size of at least one: the slice is
    the tail of the stored history, in stored order, of at most
    [max_history] turns, and all of the history when it is that short. *)
Lemma recent_history_window (bot : HueChatbot) :
  1 <= max_history bot ->
  len (recent_history bot) <= max_history bot
  /\ (exists older, history bot = older ++ recent_history bot)
  /\ (len (history bot) <= max_history bot -> recent_history bot = history bot).
Proof.
  intros Hpos. unfold recent_history, slice_from.
  destruct (- max_history bot <? 0) eqn:Hneg; [| lia].
  split; [| split].
  - unfold len. rewrite length_drop. unfold len. lia.
  - eexists. symmetry. apply take_drop.
  - intros Hshort.
    replace (Z.to_nat (Z.max 0 (len (history bot) + - max_history bot))) with 0%nat by lia.
    reflexivity.
Qed.

(** Whatever the window size, the slice is a tail of the stored history. *)
Lemma recent_history_suffix (bot : HueChatbot) :
  exists older, history bot = older ++ recent_history bot.
Proof.
  unfold recent_history, slice_from. eexists. symmetry. apply take_drop.
Qed.

(** C7 at [max_history = 0]: the slice [history[-0:]] is the whole
    history, two turns where the window allows none. *)
Theorem C7_zero_window_reads_every_turn :
  max_history zero_window_bot = 0
  /\ recent_history zero_window_bot = [turn1; turn2]
  /\ len (recent_history zero_window_bot) = 2
  /\ ~ len (recent_history zero_window_bot) <= max_history zero_window_bot.
Proof.
  split; [reflexivity |]. split; [reflexivity |]. split; [reflexivity |].
  vm_compute. intros H. apply H. reflexivity.
Qed.

(** C10: with [max_history = 0] the slice [history[-0:]] is the whole
    stored history, so the history context [chat] builds renders every
    stored turn, and it is this context that [chat] passes on. *)
Theorem C10_zero_window_includes_every_turn
  {World : Type} (lower : str -> str)
  (ddgs_text : str -> Z -> World -> (Exception + list SearchResult) * World)
  (as_completed : list str -> World -> list (Exception + Soup) * World)
  (generate_content : str -> World -> (Exception + str) * World)
  (st : State) (question : str) :
  max_history (self st) = 0 ->
  history (self st) <> [] ->
  recent_history (self st) = history (self st)
  /\ recent_history (self st) <> []
  /\ history_context_of (self st)
     = join (py " ") (render_turn <$> history (self st))
  /\ fst (chat lower ddgs_text as_completed generate_content question st)
     = fst (_rag_process lower ddgs_text as_completed generate_content question
              (join (py " ") (render_turn <$> history (self st))) st).
Proof.
  intros Hzero Hsome.
  assert (Hall : recent_history (self st) = history (self st)).
  { unfold recent_history, slice_from. rewrite Hzero.
    change (- 0 <? 0) with false. cbv iota.
    replace (Z.to_nat (Z.min (len (history (self st))) (- 0))) with 0%nat
      by (pose proof (len_nonneg (history (self st))); lia).
    reflexivity. }
  assert (Hctx : history_context_of (self st)
                 = join (py " ") (render_turn <$> history (self st))).
  { unfold history_context_of. rewrite Hall.
    destruct (history (self st)); [congruence | reflexivity]. }
  split; [exact Hall |]. split; [now rewrite Hall |]. split; [exact Hctx |].
  unfold chat, bind, get_self, history_append, ret. cbn [self]. rewrite Hctx.
  now destruct (_rag_process lower ddgs_text as_completed generate_content question
                  (join (py " ") (render_turn <$> history (self st))) st).
Qed.

Lemma C10_zero_window_includes_every_turn_witness :
  let st := mkState zero_window_bot 0%nat [] in
  recent_history (self st) = history (self st)
  /\ recent_history (self st) <> []
  /\ history_context_of (self st)
     = join (py " ") (render_turn <$> history (self st))
  /\ fst (chat ascii_lower steady_ddgs steady_pool steady_gemini (py "Hue co gi?") st)
     = fst (_rag_process ascii_lower steady_ddgs steady_pool steady_gemini
              (py "Hue co gi?")
              (join (py " ") (render_turn <$> history (self st))) st).
Proof.
  apply (C10_zero_window_includes_every_turn ascii_lower steady_ddgs steady_pool
           steady_gemini (mkState zero_window_bot 0%nat []) (py "Hue co gi?")).
  - reflexivity.
  - discriminate.
Defined.

(** ** Runs of the pipeline on the concrete services *)

(** A window of two over three stored turns renders the last two. *)
Example two_window_renders_last_two :
  recent_history two_window_bot = [turn2; turn3]
  /\ history_context_of two_window_bot
     = render_turn turn2 ++ py " " ++ render_turn turn3.
Proof. split; reflexivity. Qed.

(** Three usable pages out of five futures: the combined text is the three
    texts, each followed by a blank line, and the counter reaches three. *)
Example mixed_pool_keeps_three :
  accumulate (_extract_article_fast <$> fst (mixed_pool [] 0%nat)) [] 0
  = (mjoin (replicate 3 (replicate 200 97%N ++ [10; 10]%N)), 3).
Proof. vm_compute. reflexivity. Qed.

(** The filter compares the lowercase form: a capitalised blocked host is
    dropped. *)
Example capitalised_host_is_blocked :
  blocked ascii_lower (py "https://www.Facebook.com/hue") = true
  /\ blocked ascii_lower url_a = false.
Proof. split; vm_compute; reflexivity. Qed.

(** A whole turn: the answer is the stripped response, the history holds
    the turn, and the log shows the three stages in order. *)
Example steady_chat_run :
  fst steady_chat = py "Dai Noi la hoang thanh cua trieu Nguyen."
  /\ history (self (snd steady_chat))
     = [mkTurn (py "Dai Noi o dau?") (py "Dai Noi la hoang thanh cua trieu Nguyen.")]
  /\ is_ddgs_text <$> log (snd steady_chat) = [true; false; false]
  /\ is_process_urls <$> log (snd steady_chat) = [false; true; false]
  /\ is_generate_answer <$> log (snd steady_chat) = [false; false; true].
Proof. repeat split; vm_compute; reflexivity. Qed.

(** * Further properties *)

(** ** The search loop *)

Section CollectShape.

Variable lower : str -> str.

Lemma collect_urls_take results : forall urls max_results,
  len urls < max_results ->
  collect_urls lower results urls max_results
  = urls ++ take (Z.to_nat max_results - length urls) (usable_hrefs lower results).
Proof.
  unfold usable_hrefs.
  induction results as [|r rest IH]; intros urls max_results Hlt;
    cbn [collect_urls fmap list_fmap].
  - rewrite filter_nil, take_nil, app_nil_r. reflexivity.
  - rewrite filter_cons.
    destruct (blocked lower (href r)) eqn:Hb; cbn [negb].
    + rewrite decide_False by discriminate.
      destruct (len urls >=? max_results) eqn:Hge; [lia | now apply IH].
    + rewrite decide_True by reflexivity.
      assert (Hk : (Z.to_nat max_results - length urls
                    = S (Z.to_nat max_results - length (urls ++ [href r])))%nat).
      { rewrite length_app. cbn. unfold len in Hlt. lia. }
      rewrite Hk. cbn [take].
      destruct (len (urls ++ [href r]) >=? max_results) eqn:Hge.
      * rewrite len_snoc in Hge.
        replace (Z.to_nat max_results - length (urls ++ [href r]))%nat with 0%nat
          by (rewrite length_app; cbn; unfold len in *; lia).
        rewrite take_0. reflexivity.
      * rewrite IH by (rewrite len_snoc in *; lia).
        rewrite <- app_assoc. reflexivity.
Qed.

Lemma collect_urls_first_only results max_results :
  max_results <= 0 ->
  collect_urls lower results [] max_results
  = usable_hrefs lower (take 1 results).
Proof.
  intros Hcap. unfold usable_hrefs.
  destruct results as [|r rest]; [reflexivity |].
  cbn [collect_urls]. change (take 1 (r :: rest)) with [r].
  rewrite fmap_cons, fmap_nil, filter_cons, filter_nil.
  destruct (blocked lower (href r)) eqn:Hb; cbn [negb].
  - rewrite decide_False by discriminate.
    destruct (len (@nil str) >=? max_results) eqn:Hge; [reflexivity |].
    change (len (@nil str)) with 0 in Hge. lia.
  - rewrite decide_True by reflexivity. cbn [app].
    destruct (len [href r] >=? max_results) eqn:Hge; [reflexivity |].
    change (len [href r]) with 1 in Hge. lia.
Qed.

Lemma collect_urls_prefix results max_results :
  collect_urls lower results [] max_results `prefix_of` usable_hrefs lower results.
Proof.
  destruct (Z_le_gt_dec max_results 0) as [Hcap | Hcap].
  - rewrite (collect_urls_first_only results max_results Hcap).
    exists (usable_hrefs lower (drop 1 results)).
    unfold usable_hrefs. rewrite <- filter_app, <- fmap_app, take_drop. reflexivity.
  - rewrite collect_urls_take by (unfold len; cbn; lia). cbn [app].
    apply prefix_take.
Qed.

End CollectShape.

(** The loop of [_search_duckduckgo] returns, for every cap, a leading part
    of the usable URLs in the provider's order: nothing is reordered,
    repeated or invented.  With a cap of zero or less it looks at the
    first record only. *)
Theorem collect_urls_is_prefix_of_usable
  (lower : str -> str) (results : list SearchResult) (max_results : Z) :
  collect_urls lower results [] max_results `prefix_of` usable_hrefs lower results
  /\ (max_results <= 0 ->
      collect_urls lower results [] max_results = usable_hrefs lower (take 1 results)).
Proof.
  split; [apply collect_urls_prefix | apply collect_urls_first_only].
Qed.

(** On a cache miss answered by the provider, with a cap of at least one,
    [_search_duckduckgo] returns exactly the first [max_results] usable
    URLs, and all of them when there are fewer. *)
Theorem search_miss_returns_first_usable
  {World : Type} (lower : str -> str)
  (ddgs_text : str -> Z -> World -> (Exception + list SearchResult) * World)
  (st : State) (query : str) (max_results : option Z)
  (results : list SearchResult) (w' : World) :
  search_cache (self st) !! query = None ->
  ddgs_text (search_query_of query)
    (effective_max_results (self st) max_results * 2) (world st)
    = (inr results, w') ->
  1 <= effective_max_results (self st) max_results ->
  fst (_search_duckduckgo lower ddgs_text query max_results st)
  = take (Z.to_nat (effective_max_results (self st) max_results))
      (usable_hrefs lower results).
Proof.
  intros Hmiss Hfetch Hcap.
  rewrite (search_miss_ok lower ddgs_text st query max_results results w' Hmiss Hfetch).
  cbn [fst]. rewrite collect_urls_take by (unfold len; cbn; lia).
  cbn [app length]. now rewrite Nat.sub_0_r.
Qed.

Lemma search_miss_returns_first_usable_witness :
  fst (_search_duckduckgo ascii_lower mixed_ddgs (py "Dai Noi") None
         (mkState fresh_bot 0%nat []))
  = take (Z.to_nat (effective_max_results fresh_bot None))
      (usable_hrefs ascii_lower mixed_records).
Proof.
  apply (search_miss_returns_first_usable ascii_lower mixed_ddgs
           (mkState fresh_bot 0%nat []) (py "Dai Noi") None mixed_records 1%nat).
  - vm_compute. reflexivity.
  - reflexivity.
  - vm_compute. discriminate.
Defined.

Example mixed_search_skips_blocked :
  fst (_search_duckduckgo ascii_lower mixed_ddgs (py "Dai Noi") None
         (mkState fresh_bot 0%nat [])) = [url_a; url_b].
Proof. vm_compute. reflexivity. Qed.

(** ** What each stage does to the instance *)

Section InstanceFacts.

Context {World : Type}.
Variable lower : str -> str.
Variable ddgs_text : str -> Z -> World -> (Exception + list SearchResult) * World.
Variable as_completed : list str -> World -> list (Exception + Soup) * World.
Variable generate_content : str -> World -> (Exception + str) * World.

Implicit Types (st : @State World).

(** The aggregator and the generator leave the instance alone: after
    [_rag_process] it is as the search left it. *)
Lemma rag_process_self st question history_text :
  self (snd (_rag_process lower ddgs_text as_completed generate_content
               question history_text st))
  = self (snd (_search_duckduckgo lower ddgs_text question None st)).
Proof.
  destruct (fst (_search_duckduckgo lower ddgs_text question None st)) as [|url urls]
    eqn:Hurls.
  - now rewrite (rag_process_no_urls lower ddgs_text as_completed generate_content
                   st question history_text Hurls).
  - assert (Hsome : fst (_search_duckduckgo lower ddgs_text question None st) <> [])
      by (rewrite Hurls; discriminate).
    destruct (strip (fst (_process_urls_parallel as_completed
                (fst (_search_duckduckgo lower ddgs_text question None st))
                (snd (_search_duckduckgo lower ddgs_text question None st)))))
      as [|c rest] eqn:Htext.
    + rewrite (rag_process_blank_text lower ddgs_text as_completed generate_content
                 st question history_text Hsome Htext).
      now rewrite process_urls_run.
    + assert (Hfull : strip (fst (_process_urls_parallel as_completed
                (fst (_search_duckduckgo lower ddgs_text question None st))
                (snd (_search_duckduckgo lower ddgs_text question None st)))) <> [])
        by (rewrite Htext; discriminate).
      rewrite (rag_process_generates lower ddgs_text as_completed generate_content
                 st question history_text Hsome Hfull).
      now rewrite generate_answer_run, process_urls_run.
Qed.

Lemma chat_run st question :
  chat lower ddgs_text as_completed generate_content question st
  = (fst (_rag_process lower ddgs_text as_completed generate_content question
            (history_context_of (self st)) st),
     let st1 := snd (_rag_process lower ddgs_text as_completed generate_content
                       question (history_context_of (self st)) st) in
     mkState
       (mkHueChatbot (max_search_results (self st1)) (max_history (self st1))
          (history (self st1)
           ++ [mkTurn question
                 (fst (_rag_process lower ddgs_text as_completed generate_content
                         question (history_context_of (self st)) st))])
          (search_cache (self st1)))
       (world st1) (log st1)).
Proof.
  unfold chat, bind, get_self, history_append, ret.
  now destruct (_rag_process lower ddgs_text as_completed generate_content question
                  (history_context_of (self st)) st).
Qed.

(** A search adds at most the entry of its own query to the cache. *)
Lemma search_cache_grows st query max_results :
  search_cache (self st)
  ⊆ search_cache (self (snd (_search_duckduckgo lower ddgs_text query max_results st))).
Proof.
  destruct (search_cache (self st) !! query) as [urls |] eqn:Hcache.
  - now rewrite (search_hit lower ddgs_text st query max_results urls Hcache).
  - destruct (ddgs_text (search_query_of query)
                (effective_max_results (self st) max_results * 2) (world st))
      as [[e | results] w'] eqn:Hfetch.
    + now rewrite (search_miss_raises lower ddgs_text st query max_results e w'
                     Hcache Hfetch).
    + rewrite (search_miss_ok lower ddgs_text st query max_results results w'
                 Hcache Hfetch).
      cbn [snd self with_cache search_cache]. now apply insert_subseteq.
Qed.

Lemma search_keeps_cache_within st query (n : Z) :
  1 <= n ->
  max_search_results (self st) = n ->
  cache_within lower n (self st) ->
  (len (fst (_search_duckduckgo lower ddgs_text query None st)) <= n
   /\ Forall (fun url => blocked lower url = false)
        (fst (_search_duckduckgo lower ddgs_text query None st)))
  /\ cache_within lower n
       (self (snd (_search_duckduckgo lower ddgs_text query None st))).
Proof.
  intros Hpos Hcap Hinv.
  destruct (search_cache (self st) !! query) as [urls |] eqn:Hcache.
  - rewrite (search_hit lower ddgs_text st query None urls Hcache). cbn [fst snd].
    split; [now apply (Hinv query) | exact Hinv].
  - pose proof (search_miss_capped_and_filtered lower ddgs_text st query None Hcache)
      as Hres.
    cbn [effective_max_results] in Hres. rewrite Hcap in Hres.
    specialize (Hres Hpos). cbv zeta in Hres.
    split; [exact Hres |].
    destruct (ddgs_text (search_query_of query)
                (effective_max_results (self st) None * 2) (world st))
      as [[e | results] w'] eqn:Hfetch.
    + now rewrite (search_miss_raises lower ddgs_text st query None e w' Hcache Hfetch).
    + rewrite (search_miss_ok lower ddgs_text st query None results w' Hcache Hfetch)
        in *.
      cbn [fst snd self with_cache search_cache] in *.
      intros query' urls' Hlook. cbn [self with_cache search_cache] in Hlook.
      destruct (decide (query = query')) as [-> | Hne].
      * rewrite lookup_insert_eq in Hlook. inversion Hlook; subst. exact Hres.
      * rewrite lookup_insert_ne in Hlook by exact Hne. now apply (Hinv query').
Qed.

(** What one [chat] does to the instance. *)
Lemma chat_instance st question :
  let st' := snd (chat lower ddgs_text as_completed generate_content question st) in
  max_search_results (self st') = max_search_results (self st)
  /\ max_history (self st') = max_history (self st)
  /\ search_cache (self st')
     = search_cache (self (snd (_search_duckduckgo lower ddgs_text question None st)))
  /\ history (self st')
     = history (self st)
       ++ [mkTurn question
             (fst (chat lower ddgs_text as_completed generate_content question st))].
Proof.
  intros st'. subst st'. rewrite chat_run. cbn [fst snd self].
  cbn [max_search_results max_history search_cache history].
  rewrite !rag_process_self.
  destruct (search_frame lower ddgs_text st question None) as (Hh & Hm & Hs & _).
  now rewrite Hh, Hm, Hs.
Qed.

End InstanceFacts.

(** ** The log of one question *)

Section LogFacts.

Context {World : Type}.
Variable lower : str -> str.
Variable ddgs_text : str -> Z -> World -> (Exception + list SearchResult) * World.
Variable as_completed : list str -> World -> list (Exception + Soup) * World.
Variable generate_content : str -> World -> (Exception + str) * World.

Implicit Types (st : @State World).



End LogFacts.


(** An answered search without a usable URL is remembered: the empty list
    is cached, the first [_rag_process] returns "Không tìm thấy thông tin.",
    and every later one for the same question returns it again without
    touching the world or the log, whatever the history text. *)
Theorem empty_search_result_is_remembered
  {World : Type} (lower : str -> str)
  (ddgs_text : str -> Z -> World -> (Exception + list SearchResult) * World)
  (as_completed : list str -> World -> list (Exception + Soup) * World)
  (generate_content : str -> World -> (Exception + str) * World)
  (st : State) (question history_text later_history : str)
  (results : list SearchResult) (w' : World) :
  search_cache (self st) !! question = None ->
  ddgs_text (search_query_of question)
    (effective_max_results (self st) None * 2) (world st) = (inr results, w') ->
  usable_hrefs lower results = [] ->
  let first := _rag_process lower ddgs_text as_completed generate_content
                 question history_text st in
  fst first = no_information_found
  /\ search_cache (self (snd first)) !! question = Some []
  /\ _rag_process lower ddgs_text as_completed generate_content
       question later_history (snd first)
     = (no_information_found, snd first).
Proof.
  intros Hmiss Hfetch Hnone first.
  assert (Hcollect : collect_urls lower results [] (effective_max_results (self st) None)
                     = []).
  { destruct (collect_urls_prefix lower results (effective_max_results (self st) None))
      as [k Hk].
    rewrite Hnone in Hk. symmetry in Hk. now apply app_eq_nil in Hk. }
  pose proof (search_miss_ok lower ddgs_text st question None results w' Hmiss Hfetch)
    as Hrun.
  rewrite Hcollect in Hrun.
  assert (Hfirst : first = (no_information_found,
                            snd (_search_duckduckgo lower ddgs_text question None st))).
  { subst first. apply rag_process_no_urls. now rewrite Hrun. }
  rewrite Hfirst, Hrun. cbn [fst snd self with_cache search_cache].
  split; [reflexivity |]. split; [apply lookup_insert_eq |].
  match goal with
  | |- _rag_process _ _ _ _ _ _ ?s = _ =>
      assert (Hhit : _search_duckduckgo lower ddgs_text question None s = ([], s))
  end.
  { apply search_hit. cbn [self search_cache]. apply lookup_insert_eq. }
  rewrite rag_process_no_urls by now rewrite Hhit.
  now rewrite Hhit.
Qed.

Lemma empty_search_result_is_remembered_witness :
  let st := mkState fresh_bot 0%nat [] in
  let first := _rag_process ascii_lower social_ddgs steady_pool steady_gemini
                 (py "Dai Noi") [] st in
  fst first = no_information_found
  /\ search_cache (self (snd first)) !! py "Dai Noi" = Some []
  /\ _rag_process ascii_lower social_ddgs steady_pool steady_gemini
       (py "Dai Noi") (py "Q: a A: b") (snd first)
     = (no_information_found, snd first).
Proof.
  apply (empty_search_result_is_remembered ascii_lower social_ddgs steady_pool
           steady_gemini (mkState fresh_bot 0%nat []) (py "Dai Noi") []
           (py "Q: a A: b") social_records 1%nat).
  - vm_compute. reflexivity.
  - reflexivity.
  - vm_compute. reflexivity.
Defined.

(** ** The interactive session *)

Section SessionFacts.

Context {World : Type}.
Variable lower : str -> str.
Variable ddgs_text : str -> Z -> World -> (Exception + list SearchResult) * World.
Variable as_completed : list str -> World -> list (Exception + Soup) * World.
Variable generate_content : str -> World -> (Exception + str) * World.

Implicit Types (st : @State World) (inputs : list Input).

Abbreviation run_start := (start lower ddgs_text as_completed generate_content).
Abbreviation run_chat := (chat lower ddgs_text as_completed generate_content).

(** The loop, one input at a time. *)
Lemma start_step i inputs st :
  run_start (i :: inputs) st
  = if is_ending lower i then (Ended, st)
    else match entered i with
         | Some (c :: question) =>
             run_start inputs (snd (run_chat (c :: question) st))
         | _ => run_start inputs st
         end.
Proof.
  destruct i as [text | | e]; cbn [start is_ending entered]; try reflexivity.
  destruct (bool_decide (lower (strip text) ∈ termination_tokens)); [reflexivity |].
  destruct (strip text) as [|c question]; cbn [truthy negb]; [reflexivity |].
  unfold bind. now destruct (run_chat (c :: question) st).
Qed.

Lemma questions_of_step i inputs :
  questions_of lower (i :: inputs)
  = if is_ending lower i then []
    else match entered i with
         | Some (c :: question) => (c :: question) :: questions_of lower inputs
         | _ => questions_of lower inputs
         end.
Proof.
  unfold questions_of. cbn [before_end].
  destruct (is_ending lower i); [reflexivity |].
  cbn [omap list_omap]. destruct (entered i) as [[|c question] |].
  - now rewrite filter_cons_False by (intros H; now apply H).
  - now rewrite filter_cons_True by discriminate.
  - reflexivity.
Qed.

Lemma start_questions inputs : forall st,
  q <$> history (self (snd (run_start inputs st)))
  = (q <$> history (self st)) ++ questions_of lower inputs.
Proof.
  induction inputs as [|i inputs IH]; intros st.
  - cbn [start ret snd]. unfold questions_of. cbn. now rewrite app_nil_r.
  - rewrite start_step, questions_of_step.
    destruct (is_ending lower i); [cbn [snd]; now rewrite app_nil_r |].
    destruct (entered i) as [[|c question] |]; try apply IH.
    rewrite IH.
    destruct (chat_instance lower ddgs_text as_completed generate_content
                st (c :: question)) as (_ & _ & _ & Hh).
    rewrite Hh, fmap_app, <- app_assoc. reflexivity.
Qed.

Lemma start_outcome inputs : forall st,
  fst (run_start inputs st)
  = if existsb (is_ending lower) inputs then Ended else Prompting.
Proof.
  induction inputs as [|i inputs IH]; intros st; [reflexivity |].
  rewrite start_step. cbn [existsb].
  destruct (is_ending lower i); [reflexivity |]. cbn [orb].
  destruct (entered i) as [[|c question] |]; apply IH.
Qed.

Lemma start_instance inputs : forall st,
  max_search_results (self (snd (run_start inputs st))) = max_search_results (self st)
  /\ max_history (self (snd (run_start inputs st))) = max_history (self st)
  /\ search_cache (self st) ⊆ search_cache (self (snd (run_start inputs st)))
  /\ history (self st) `prefix_of` history (self (snd (run_start inputs st))).
Proof.
  induction inputs as [|i inputs IH]; intros st.
  - cbn [start ret snd]. repeat split; reflexivity.
  - rewrite start_step.
    destruct (is_ending lower i); [cbn [snd]; repeat split; reflexivity |].
    destruct (entered i) as [[|c question] |]; try apply IH.
    destruct (IH (snd (run_chat (c :: question) st))) as (Hs & Hm & Hc & Hh).
    destruct (chat_instance lower ddgs_text as_completed generate_content
                st (c :: question)) as (Hs1 & Hm1 & Hc1 & Hh1).
    split; [congruence |]. split; [congruence |]. split.
    + etransitivity; [| exact Hc]. rewrite Hc1. apply search_cache_grows.
    + etransitivity; [| exact Hh]. rewrite Hh1. now apply prefix_app_r.
Qed.

Lemma start_cache_within inputs (n : Z) : forall st,
  1 <= n ->
  max_search_results (self st) = n ->
  cache_within lower n (self st) ->
  cache_within lower n (self (snd (run_start inputs st))).
Proof.
  induction inputs as [|i inputs IH]; intros st Hpos Hcap Hinv; [exact Hinv |].
  rewrite start_step.
  destruct (is_ending lower i); [exact Hinv |].
  destruct (entered i) as [[|c question] |]; try (now apply IH).
  destruct (chat_instance lower ddgs_text as_completed generate_content
              st (c :: question)) as (Hs1 & _ & Hc1 & _).
  apply IH; [exact Hpos | congruence |].
  intros query urls Hlook. rewrite Hc1 in Hlook.
  destruct (search_keeps_cache_within lower ddgs_text st (c :: question) n
              Hpos Hcap Hinv) as [_ Hnext].
  now apply (Hnext query).
Qed.

Lemma start_idle inputs : forall st,
  Forall (fun i => is_ending lower i = false
                   /\ (entered i = None \/ entered i = Some [])) inputs ->
  run_start inputs st = (Prompting, st).
Proof.
  induction inputs as [|i inputs IH]; intros st Hidle; [reflexivity |].
  inversion Hidle as [|? ? [Hgo Hblank] Hrest]; subst.
  rewrite start_step, Hgo.
  destruct Hblank as [-> | ->]; now apply IH.
Qed.

End SessionFacts.

(** A session records one turn per question, in the order entered: the
    questions of the history after [start] are those before it followed by
    the non-blank lines entered before the first termination token or
    interrupt, each stripped of surrounding whitespace; the loop has ended
    exactly when such a token or interrupt was among the inputs. *)
Theorem start_records_each_question_once
  {World : Type} (lower : str -> str)
  (ddgs_text : str -> Z -> World -> (Exception + list SearchResult) * World)
  (as_completed : list str -> World -> list (Exception + Soup) * World)
  (generate_content : str -> World -> (Exception + str) * World)
  (inputs : list Input) (st : State) :
  let session := start lower ddgs_text as_completed generate_content inputs st in
  q <$> history (self (snd session))
  = (q <$> history (self st)) ++ questions_of lower inputs
  /\ fst session = (if existsb (is_ending lower) inputs then Ended else Prompting).
Proof.
  intros session. subst session. split; [apply start_questions | apply start_outcome].
Qed.

(** Through a whole session the configuration stays as constructed, and the
    cache and the history only grow: no cached list is dropped or replaced
    and no stored turn is removed or rewritten. *)
Theorem start_only_extends_cache_and_history
  {World : Type} (lower : str -> str)
  (ddgs_text : str -> Z -> World -> (Exception + list SearchResult) * World)
  (as_completed : list str -> World -> list (Exception + Soup) * World)
  (generate_content : str -> World -> (Exception + str) * World)
  (inputs : list Input) (st : State) :
  let st' := snd (start lower ddgs_text as_completed generate_content inputs st) in
  max_search_results (self st') = max_search_results (self st)
  /\ max_history (self st') = max_history (self st)
  /\ search_cache (self st) ⊆ search_cache (self st')
  /\ history (self st) `prefix_of` history (self st').
Proof. intros st'. subst st'. apply start_instance. Qed.

(** With a cap of at least one, a cache whose lists hold at most
    [max_search_results] URLs, none blocked, stays so through a whole
    session; the empty cache of a new instance is such a cache. *)
Theorem start_keeps_cache_capped_and_filtered
  {World : Type} (lower : str -> str)
  (ddgs_text : str -> Z -> World -> (Exception + list SearchResult) * World)
  (as_completed : list str -> World -> list (Exception + Soup) * World)
  (generate_content : str -> World -> (Exception + str) * World)
  (inputs : list Input) (st : State) :
  1 <= max_search_results (self st) ->
  cache_within lower (max_search_results (self st)) (self st) ->
  cache_within lower (max_search_results (self st))
    (self (snd (start lower ddgs_text as_completed generate_content inputs st))).
Proof.
  intros Hpos Hinv. now apply start_cache_within.
Qed.

Lemma start_keeps_cache_capped_and_filtered_witness :
  cache_within ascii_lower (max_search_results fresh_bot)
    (self (snd (start ascii_lower mixed_ddgs steady_pool steady_gemini short_session
                  (mkState fresh_bot 0%nat [])))).
Proof.
  apply (start_keeps_cache_capped_and_filtered ascii_lower mixed_ddgs steady_pool
           steady_gemini short_session (mkState fresh_bot 0%nat [])).
  - vm_compute. discriminate.
  - intros query urls Hlook. cbn in Hlook. rewrite lookup_empty in Hlook. discriminate.
Defined.

(** Blank lines and failures of [input] neither end the loop nor change
    anything: after any number of them the session is still prompting, in
    the state it started from.  An input that keeps failing, as at the end
    of a piped input, is therefore asked for again and again. *)
Theorem start_ignores_blank_lines_and_input_errors
  {World : Type} (lower : str -> str)
  (ddgs_text : str -> Z -> World -> (Exception + list SearchResult) * World)
  (as_completed : list str -> World -> list (Exception + Soup) * World)
  (generate_content : str -> World -> (Exception + str) * World)
  (inputs : list Input) (st : State) :
  Forall (fun i => is_ending lower i = false
                   /\ (entered i = None \/ entered i = Some [])) inputs ->
  start lower ddgs_text as_completed generate_content inputs st = (Prompting, st).
Proof. apply start_idle. Qed.

Lemma start_ignores_blank_lines_and_input_errors_witness :
  start ascii_lower steady_ddgs steady_pool steady_gemini
    [InputRaises (mkException (py "EOF when reading a line")); Line (py "   ");
     InputRaises (mkException (py "EOF when reading a line"))]
    (mkState fresh_bot 0%nat [])
  = (Prompting, mkState fresh_bot 0%nat []).
Proof.
  apply (start_ignores_blank_lines_and_input_errors ascii_lower steady_ddgs steady_pool
           steady_gemini).
  constructor; [split; [reflexivity | left; reflexivity] |].
  constructor; [split; [vm_compute; reflexivity | right; vm_compute; reflexivity] |].
  constructor; [split; [reflexivity | left; reflexivity] |].
  constructor.
Defined.

Example short_session_run :
  let session := start ascii_lower mixed_ddgs steady_pool steady_gemini short_session
                   (mkState fresh_bot 0%nat []) in
  fst session = Ended
  /\ q <$> history (self (snd session)) = [py "Dai Noi o dau?"; py "Bun bo la gi?"]
  /\ questions_of ascii_lower short_session = [py "Dai Noi o dau?"; py "Bun bo la gi?"].
Proof. cbv zeta. split; [| split]; vm_compute; reflexivity. Qed.

(** ** The content extractor: which text is used *)

Lemma first_region_skips (soup : Soup) (before after : list str) :
  Forall (fun selector => select_one_text soup selector = None) before ->
  first_region soup (before ++ after) = first_region soup after.
Proof.
  induction 1 as [|selector before Hnone _ IH]; [reflexivity |].
  cbn [app first_region]. now rewrite Hnone.
Qed.

(** The first selector that matches decides alone: its text is used when
    it has at least 100 characters, and otherwise the text of the whole page
    is, whatever later selectors would match. *)
Theorem first_matching_selector_decides
  (soup : Soup) (before after : list str) (selector text : str) :
  content_selectors = before ++ selector :: after ->
  Forall (fun earlier => select_one_text soup earlier = None) before ->
  select_one_text soup selector = Some text ->
  extracted_text soup = (if len text <? 100 then page_text soup else text).
Proof.
  intros Hsplit Hbefore Hmatch. unfold extracted_text.
  rewrite Hsplit, (first_region_skips soup before _ Hbefore).
  cbn [first_region]. rewrite Hmatch.
  destruct text as [|c text]; [reflexivity |]. reflexivity.
Qed.

Lemma first_matching_selector_decides_witness :
  extracted_text short_article_page
  = (if len (replicate 40 97%N) <? 100
     then page_text short_article_page else replicate 40 97%N).
Proof.
  apply (first_matching_selector_decides short_article_page []
           [py ".article-content"; py ".content"; py ".post-content";
            py ".entry-content"; py ".main-content"; py "main"; py ".article-body"]
           (py "article") (replicate 40 97%N)).
  - reflexivity.
  - constructor.
  - vm_compute. reflexivity.
Defined.

(** When no selector matches, the text of the whole page is used. *)
Lemma no_selector_matches (soup : Soup) :
  Forall (fun selector => select_one_text soup selector = None) content_selectors ->
  extracted_text soup = page_text soup.
Proof.
  intros Hnone. unfold extracted_text.
  rewrite <- (app_nil_r content_selectors), (first_region_skips soup _ [] Hnone).
  reflexivity.
Qed.

(** ** The fetch aggregator: what is combined *)

Lemma joined_cons (content : str) (contents : list str) :
  joined (content :: contents) = content ++ [10; 10]%N ++ joined contents.
Proof. unfold joined. cbn. now rewrite <- app_assoc. Qed.

Lemma accumulate_shape contents : forall combined_text successful_count,
  len combined_text <= 5000 ->
  exists k : nat,
    accumulate contents combined_text successful_count
    = (combined_text ++ joined (take k (usable_contents contents)),
       successful_count + Z.of_nat k)
    /\ (k <= length (usable_contents contents))%nat
    /\ (k = length (usable_contents contents)
        \/ 5000 < len (combined_text ++ joined (take k (usable_contents contents))))
    /\ (forall j : nat, (j < k)%nat ->
          len (combined_text ++ joined (take j (usable_contents contents))) <= 5000).
Proof.
  unfold usable_contents.
  induction contents as [|content rest IH]; intros combined_text successful_count Hsmall.
  - exists 0%nat. cbn [accumulate]. rewrite filter_nil. cbn [take length].
    unfold joined. cbn. rewrite app_nil_r, Z.add_0_r.
    split; [reflexivity |]. split; [lia |]. split; [now left | intros j Hj; lia].
  - cbn [accumulate]. rewrite filter_cons.
    change (truthy content && (len (strip content) >? 50))
      with (usable_content content).
    destruct (usable_content content) eqn:Huse.
    + rewrite decide_True by reflexivity.
      destruct (len (combined_text ++ content ++ [10; 10]%N) >? 5000) eqn:Hover.
      * exists 1%nat. cbn [take length]. rewrite joined_cons.
        unfold joined at 1. cbn [fmap list_fmap mjoin list_join].
        rewrite !app_nil_r.
        split; [reflexivity |]. split; [lia |]. split; [right; lia |].
        intros j Hj. replace j with 0%nat by lia. cbn [take].
        unfold joined. cbn. now rewrite app_nil_r.
      * destruct (IH (combined_text ++ content ++ [10; 10]%N) (successful_count + 1))
          as (k & Hrun & Hk & Hstop & Hmin); [lia |].
        exists (S k). cbn [take length]. rewrite joined_cons.
        rewrite Hrun, <- !app_assoc.
        split; [f_equal; lia |]. split; [lia |]. split.
        -- destruct Hstop as [-> | Hstop]; [now left | right].
           now rewrite <- !app_assoc in Hstop.
        -- intros [|j] Hj.
           ++ cbn [take]. unfold joined. cbn. now rewrite app_nil_r.
           ++ cbn [take]. rewrite joined_cons.
              specialize (Hmin j ltac:(lia)). now rewrite <- !app_assoc in Hmin.
    + rewrite decide_False by discriminate. now apply IH.
Qed.

(** The combined text is made of the kept results in completion order,
    each followed by a blank line; the counter is the number of results in
    it; and that number is the least one at which the text exceeds 5000
    characters, or all of the kept results when it never does. *)
Theorem accumulate_joins_first_usable_results (contents : list str) :
  exists k : nat,
    accumulate contents [] 0
    = (joined (take k (usable_contents contents)), Z.of_nat k)
    /\ (k <= length (usable_contents contents))%nat
    /\ (k = length (usable_contents contents)
        \/ 5000 < len (joined (take k (usable_contents contents))))
    /\ (forall j : nat, (j < k)%nat ->
          len (joined (take j (usable_contents contents))) <= 5000).
Proof.
  destruct (accumulate_shape contents [] 0) as (k & Hrun & Hk & Hstop & Hmin);
    [unfold len; cbn; lia |].
  exists k. cbn [app] in *. rewrite Z.add_0_l in Hrun. auto.
Qed.

Lemma accumulate_all contents : forall combined_text successful_count,
  len (combined_text ++ joined (usable_contents contents)) <= 5000 ->
  accumulate contents combined_text successful_count
  = (combined_text ++ joined (usable_contents contents),
     successful_count + len (usable_contents contents)).
Proof.
  unfold usable_contents.
  induction contents as [|content rest IH]; intros combined_text successful_count Hfit.
  - cbn [accumulate]. rewrite filter_nil. unfold joined, len. cbn.
    now rewrite app_nil_r, Z.add_0_r.
  - cbn [accumulate]. rewrite filter_cons in *.
    change (truthy content && (len (strip content) >? 50))
      with (usable_content content).
    destruct (usable_content content) eqn:Huse.
    + rewrite decide_True in * by reflexivity.
      rewrite joined_cons in *. rewrite !app_assoc in Hfit.
      destruct (len (combined_text ++ content ++ [10; 10]%N) >? 5000) eqn:Hover.
      * rewrite !len_app in *.
        pose proof (len_nonneg (joined (filter (fun c => usable_content c = true) rest))).
        lia.
      * rewrite IH by (now rewrite <- !app_assoc in *).
        rewrite <- !app_assoc. f_equal. unfold len. cbn [length]. lia.
    + rewrite decide_False in * by discriminate. now apply IH.
Qed.

(** When the kept results with their blank lines fit in 5000 characters,
    all of them are combined and counted, whatever else completed. *)
Theorem accumulate_keeps_everything_under_threshold (contents : list str) :
  len (joined (usable_contents contents)) <= 5000 ->
  accumulate contents [] 0
  = (joined (usable_contents contents), len (usable_contents contents)).
Proof.
  intros Hfit. now rewrite accumulate_all.
Qed.

Lemma accumulate_keeps_everything_under_threshold_witness :
  accumulate (_extract_article_fast <$> fst (mixed_pool [] 0%nat)) [] 0
  = (joined (usable_contents (_extract_article_fast <$> fst (mixed_pool [] 0%nat))),
     len (usable_contents (_extract_article_fast <$> fst (mixed_pool [] 0%nat)))).
Proof.
  apply (accumulate_keeps_everything_under_threshold
           (_extract_article_fast <$> fst (mixed_pool [] 0%nat))).
  vm_compute. discriminate.
Defined.

Lemma accumulate_nothing_usable contents : forall combined_text successful_count,
  Forall (fun content => len (strip content) <= 50) contents ->
  accumulate contents combined_text successful_count = (combined_text, successful_count).
Proof.
  induction contents as [|content rest IH]; intros combined_text successful_count Hall;
    [reflexivity |].
  inversion Hall as [|? ? Hshort Hrest]; subst. cbn [accumulate].
  replace (len (strip content) >? 50) with false by lia.
  rewrite andb_false_r. now apply IH.
Qed.

(** When the search found URLs and no completed page gives more than 50
    characters once stripped, exactly 50 included, nothing is combined:
    [_rag_process] returns "Không trích xuất được thông tin." and the
    generation provider is not asked. *)
Theorem no_usable_page_means_no_generation
  {World : Type} (lower : str -> str)
  (ddgs_text : str -> Z -> World -> (Exception + list SearchResult) * World)
  (as_completed : list str -> World -> list (Exception + Soup) * World)
  (generate_content : str -> World -> (Exception + str) * World)
  (st : State) (question history_text : str) :
  let searched := _search_duckduckgo lower ddgs_text question None st in
  fst searched <> [] ->
  Forall (fun fetched => len (strip (_extract_article_fast fetched)) <= 50)
    (fst (as_completed (fst searched) (world (snd searched)))) ->
  let run := _rag_process lower ddgs_text as_completed generate_content
               question history_text st in
  fst run = could_not_extract
  /\ calls is_generate_answer (log (snd run)) = calls is_generate_answer (log st).
Proof.
  intros searched Hurls Hshort run. subst run.
  assert (Hblank : strip (fst (_process_urls_parallel as_completed
                                 (fst searched) (snd searched))) = []).
  { rewrite process_urls_run. cbn [fst].
    rewrite accumulate_nothing_usable; [reflexivity |].
    now apply Forall_fmap. }
  rewrite (rag_process_blank_text lower ddgs_text as_completed generate_content
             st question history_text Hurls Hblank).
  cbn [fst snd]. split; [reflexivity |].
  rewrite process_urls_run. cbn [snd log]. rewrite calls_snoc.
  cbn [is_generate_answer]. rewrite Nat.add_0_r.
  now destruct (search_frame lower ddgs_text st question None) as (_ & _ & _ & _ & Hg).
Qed.

Lemma no_usable_page_means_no_generation_witness :
  let st := mkState fresh_bot 0%nat [] in
  let run := _rag_process ascii_lower steady_ddgs quiet_pool steady_gemini
               (py "Dai Noi") [] st in
  fst run = could_not_extract
  /\ calls is_generate_answer (log (snd run)) = calls is_generate_answer (log st).
Proof.
  apply (no_usable_page_means_no_generation ascii_lower steady_ddgs quiet_pool
           steady_gemini (mkState fresh_bot 0%nat []) (py "Dai Noi") []).
  - vm_compute. discriminate.
  - vm_compute. repeat constructor; discriminate.
Defined.

Lemma accumulate_never_blank contents : forall combined_text successful_count,
  combined_text = [] \/ ~ Forall (fun c => isspace c = true) combined_text ->
  fst (accumulate contents combined_text successful_count) = []
  \/ ~ Forall (fun c => isspace c = true)
         (fst (accumulate contents combined_text successful_count)).
Proof.
  induction contents as [|content rest IH]; intros combined_text successful_count Hacc;
    [exact Hacc |].
  cbn [accumulate].
  destruct (truthy content && (len (strip content) >? 50)) eqn:Huse; [| now apply IH].
  assert (Hnext : ~ Forall (fun c => isspace c = true)
                      (combined_text ++ content ++ [10; 10]%N)).
  { intros Hall. apply Forall_app in Hall as [_ Hall].
    apply Forall_app in Hall as [Hall _].
    apply strip_all_space in Hall. apply andb_true_iff in Huse as [_ Hlen].
    rewrite Hall in Hlen. change (len (@nil N)) with 0 in Hlen. lia. }
  destruct (len (combined_text ++ content ++ [10; 10]%N) >? 5000).
  - right. exact Hnext.
  - apply IH. now right.
Qed.

(** The combined text of the aggregator is never made of whitespace only:
    it is empty, or it holds a character that is not whitespace.  The blank
    check of the orchestrator therefore fires exactly when nothing was
    combined. *)
Theorem combined_text_is_empty_or_not_blank
  {World : Type} (as_completed : list str -> World -> list (Exception + Soup) * World)
  (urls : list str) (st : State) :
  strip (fst (_process_urls_parallel as_completed urls st)) = []
  <-> fst (_process_urls_parallel as_completed urls st) = [].
Proof.
  rewrite process_urls_run. cbn [fst]. split.
  - intros Hblank. apply strip_nil_iff in Hblank.
    destruct (accumulate_never_blank
                (_extract_article_fast <$> fst (as_completed urls (world st))) [] 0)
      as [Hnil | Hnot]; [now left | exact Hnil | contradiction].
  - intros ->. reflexivity.
Qed.

(** ** The prompt *)

Lemma replace_newline_keeps_space (s : str) :
  Forall (fun c => isspace c = true) s ->
  Forall (fun c => isspace c = true) (replace_char 10 (py " ") s).
Proof.
  induction 1 as [|c s Hc _ IH]; [constructor |].
  unfold replace_char in *. cbn [fmap list_fmap mjoin list_join].
  destruct (c =? 10)%N.
  - change (py " ") with [32%N]. cbn [app]. constructor; [reflexivity | exact IH].
  - cbn [app]. constructor; [exact Hc | exact IH].
Qed.

(** A history text of whitespace only, newlines included, gives the same
    prompt as no history at all: the history block is left out. *)
Theorem blank_history_is_left_out_of_the_prompt
  (question context history_text : str) :
  Forall (fun c => isspace c = true) history_text ->
  build_prompt question context history_text = build_prompt question context [].
Proof.
  intros Hblank. unfold build_prompt.
  destruct history_text as [|c rest]; [reflexivity |]. cbn [truthy].
  now rewrite (strip_all_space _ (replace_newline_keeps_space _ Hblank)).
Qed.

Lemma blank_history_is_left_out_of_the_prompt_witness :
  build_prompt (py "Dai Noi o dau?") (py "Dai Noi ...") [32; 10; 9; 32]%N
  = build_prompt (py "Dai Noi o dau?") (py "Dai Noi ...") [].
Proof.
  apply (blank_history_is_left_out_of_the_prompt (py "Dai Noi o dau?")
           (py "Dai Noi ...") [32; 10; 9; 32]%N).
  repeat constructor.
Defined.

(** ** The history window *)

(** With a window of at least one, the history context renders the last
    [max_history] stored turns, oldest first, joined by single spaces, and
    every stored turn when there are no more than that. *)
Theorem history_context_renders_last_turns (bot : HueChatbot) :
  1 <= max_history bot ->
  history_context_of bot
  = join (py " ")
      (render_turn
         <$> drop (length (history bot) - Z.to_nat (max_history bot)) (history bot))
  /\ len (recent_history bot) = Z.min (max_history bot) (len (history bot)).
Proof.
  intros Hpos.
  assert (Hslice : recent_history bot
                   = drop (length (history bot) - Z.to_nat (max_history bot))
                       (history bot)).
  { unfold recent_history, slice_from.
    destruct (- max_history bot <? 0) eqn:Hneg; [| lia].
    f_equal. unfold len. lia. }
  split.
  - unfold history_context_of. rewrite Hslice.
    destruct (history bot) as [|turn rest]; [| reflexivity].
    now rewrite drop_nil.
  - rewrite Hslice. unfold len. rewrite length_drop. lia.
Qed.

Lemma history_context_renders_last_turns_witness :
  history_context_of two_window_bot
  = join (py " ")
      (render_turn
         <$> drop (length (history two_window_bot)
                   - Z.to_nat (max_history two_window_bot)) (history two_window_bot))
  /\ len (recent_history two_window_bot)
     = Z.min (max_history two_window_bot) (len (history two_window_bot)).
Proof.
  apply (history_context_renders_last_turns two_window_bot).
  vm_compute. discriminate.
Defined.

(** With a negative window the slice does not limit the history: it skips
    the oldest [- max_history] turns and keeps every later one. *)
Theorem negative_window_skips_oldest_turns (bot : HueChatbot) :
  max_history bot < 0 ->
  recent_history bot = drop (Z.to_nat (- max_history bot)) (history bot).
Proof.
  intros Hneg. unfold recent_history, slice_from.
  destruct (- max_history bot <? 0) eqn:Hsign; [lia |].
  destruct (Z_le_gt_dec (len (history bot)) (- max_history bot)) as [Hshort | Hlong].
  - rewrite Z.min_l by lia. rewrite !drop_ge; [reflexivity | |]; unfold len in *; lia.
  - now rewrite Z.min_r by lia.
Qed.

Lemma negative_window_skips_oldest_turns_witness :
  recent_history negative_window_bot
  = drop (Z.to_nat (- max_history negative_window_bot)) (history negative_window_bot).
Proof.
  apply (negative_window_skips_oldest_turns negative_window_bot).
  reflexivity.
Defined.

(** ** Construction *)

(** Without a key the constructor raises before it reads any other
    setting: when the parameter is absent or empty and the variable
    GEMINI_API_KEY is unset or empty, [__init__] raises the [ValueError]
    of line 21, whatever the other variables hold. *)
Theorem init_without_key_raises
  (int_of_str : str -> Exception + Z) (environ : gmap str str) (api_key : option str) :
  api_key = None \/ api_key = Some [] ->
  environ !! py "GEMINI_API_KEY" = None \/ environ !! py "GEMINI_API_KEY" = Some [] ->
  __init__ int_of_str environ api_key
  = inl (mkException
           (py "API key not found. Please set GEMINI_API_KEY in .env file or pass as parameter.")).
Proof.
  intros Hparam Henv. unfold __init__, or_else.
  destruct Hparam as [-> | ->], Henv as [-> | ->]; reflexivity.
Qed.

Lemma init_without_key_raises_witness :
  __init__ digits_int keyless_environ (Some [])
  = inl (mkException
           (py "API key not found. Please set GEMINI_API_KEY in .env file or pass as parameter.")).
Proof.
  apply (init_without_key_raises digits_int keyless_environ (Some [])).
  - right. reflexivity.
  - right. vm_compute. reflexivity.
Defined.

Lemma init_success (int_of_str : str -> Exception + Z) (environ : gmap str str)
  (api_key : option str) (bot : HueChatbot) :
  __init__ int_of_str environ api_key = inr bot ->
  history bot = [] /\ search_cache bot = ∅
  /\ getenv_int int_of_str environ (py "MAX_SEARCH_RESULTS") 2
     = inr (max_search_results bot)
  /\ getenv_int int_of_str environ (py "MAX_HISTORY") 5 = inr (max_history bot).
Proof.
  unfold __init__. intros Hinit.
  destruct (or_else api_key (environ !! py "GEMINI_API_KEY")) as [[|c key] |];
    try discriminate.
  destruct (getenv_int int_of_str environ (py "MAX_SEARCH_RESULTS") 2) as [e | cap];
    [discriminate |].
  destruct (getenv_int int_of_str environ (py "MAX_HISTORY") 5) as [e | window];
    [discriminate |].
  destruct (getenv_int int_of_str environ (py "REQUEST_TIMEOUT") 5) as [e | timeout];
    [discriminate |].
  inversion Hinit; subst. cbn. auto.
Qed.

(** A session of a newly constructed instance: the instance starts without
    history and with an empty cache, its cap and window are the integers of
    MAX_SEARCH_RESULTS and MAX_HISTORY (2 and 5 when unset), the history
    after the session holds exactly the questions of the session, and with
    a cap of at least one every cached list respects the cap and the
    denylist. *)
Theorem session_of_a_new_instance
  {World : Type} (int_of_str : str -> Exception + Z) (lower : str -> str)
  (ddgs_text : str -> Z -> World -> (Exception + list SearchResult) * World)
  (as_completed : list str -> World -> list (Exception + Soup) * World)
  (generate_content : str -> World -> (Exception + str) * World)
  (environ : gmap str str) (api_key : option str) (bot : HueChatbot)
  (inputs : list Input) (w : World) :
  __init__ int_of_str environ api_key = inr bot ->
  let st' := snd (start lower ddgs_text as_completed generate_content inputs
                    (mkState bot w [])) in
  getenv_int int_of_str environ (py "MAX_SEARCH_RESULTS") 2
  = inr (max_search_results (self st'))
  /\ getenv_int int_of_str environ (py "MAX_HISTORY") 5 = inr (max_history (self st'))
  /\ q <$> history (self st') = questions_of lower inputs
  /\ (1 <= max_search_results bot ->
      cache_within lower (max_search_results bot) (self st')).
Proof.
  intros Hinit st'. subst st'.
  destruct (init_success int_of_str environ api_key bot Hinit) as (Hh & Hc & Hs & Hm).
  destruct (start_instance lower ddgs_text as_completed generate_content inputs
              (mkState bot w [])) as (Hs' & Hm' & _ & _).
  cbn [self] in Hs', Hm'. rewrite Hs', Hm'.
  split; [exact Hs |]. split; [exact Hm |]. split.
  - rewrite start_questions. cbn [self]. now rewrite Hh.
  - intros Hpos. apply start_cache_within; [exact Hpos | reflexivity |].
    intros query urls Hlook. cbn [self] in Hlook. rewrite Hc, lookup_empty in Hlook.
    discriminate.
Qed.

Lemma session_of_a_new_instance_witness :
  let bot := mkHueChatbot 3 5 [] ∅ in
  let st' := snd (start ascii_lower mixed_ddgs steady_pool steady_gemini short_session
                    (mkState bot 0%nat [])) in
  getenv_int digits_int keyed_environ (py "MAX_SEARCH_RESULTS") 2
  = inr (max_search_results (self st'))
  /\ getenv_int digits_int keyed_environ (py "MAX_HISTORY") 5
     = inr (max_history (self st'))
  /\ q <$> history (self st') = questions_of ascii_lower short_session
  /\ (1 <= max_search_results bot ->
      cache_within ascii_lower (max_search_results bot) (self st')).
Proof.
  apply (session_of_a_new_instance digits_int ascii_lower mixed_ddgs steady_pool
           steady_gemini keyed_environ None (mkHueChatbot 3 5 [] ∅) short_session
           0%nat).
  vm_compute. reflexivity.
Defined.

(** ** The search client under a coherent cache *)

(** With a configured cap of at least one and a cache whose lists respect
    the cap and the denylist, every call that takes the configured cap,
    served from the cache or not, answered by the provider or not, returns
    at most [max_search_results] URLs, none of them blocked, and leaves the
    cache such. *)
Theorem search_respects_cap_and_denylist
  {World : Type} (lower : str -> str)
  (ddgs_text : str -> Z -> World -> (Exception + list SearchResult) * World)
  (st : State) (query : str) :
  1 <= max_search_results (self st) ->
  cache_within lower (max_search_results (self st)) (self st) ->
  let searched := _search_duckduckgo lower ddgs_text query None st in
  len (fst searched) <= max_search_results (self st)
  /\ Forall (fun url => blocked lower url = false) (fst searched)
  /\ cache_within lower (max_search_results (self st)) (self (snd searched)).
Proof.
  intros Hpos Hinv searched. subst searched.
  destruct (search_keeps_cache_within lower ddgs_text st query
              (max_search_results (self st)) Hpos eq_refl Hinv) as [[Hlen Hclean] Hnext].
  auto.
Qed.

Lemma search_respects_cap_and_denylist_witness :
  let st := mkState fresh_bot 0%nat [] in
  let searched := _search_duckduckgo ascii_lower mixed_ddgs (py "Dai Noi") None st in
  len (fst searched) <= max_search_results (self st)
  /\ Forall (fun url => blocked ascii_lower url = false) (fst searched)
  /\ cache_within ascii_lower (max_search_results (self st)) (self (snd searched)).
Proof.
  apply (search_respects_cap_and_denylist ascii_lower mixed_ddgs
           (mkState fresh_bot 0%nat []) (py "Dai Noi")).
  - vm_compute. discriminate.
  - intros query urls Hlook. cbn in Hlook. rewrite lookup_empty in Hlook. discriminate.
Defined.
